(** * ResumePlus: the resume analysis service (src/services/resumeService.ts)

    A shallow embedding of [ResumeService]: the response normalizer
    [processResponse] (code-fence stripping, [JSON.parse], structure check),
    the prompt [getAnalysisPrompt], the Gemini call [analyzeWithGemini] and
    the two entry points [analyzeResume] and [analyzeResumeFromUrl].

    The browser and the SDK ([fetch], [FileReader], [generateContent],
    [console.error]) are collaborators: their answers come from a [World],
    and every call made to them is recorded as an [Event]. *)

From Stdlib Require Import List String Ascii NArith ZArith QArith Bool Lia DecimalN.
Import ListNotations.

Set Implicit Arguments.
Set Warnings "-register-all".

(** ** JavaScript strings

    A JavaScript string is a sequence of UTF-16 code units; a code unit is
    kept as its number.  [str] turns an ASCII literal of the source into
    such a sequence. *)

Definition jsstring := list N.

Definition ch (a : ascii) : N := N_of_ascii a.

Definition str (s : string) : jsstring := map ch (list_ascii_of_string s).

(** [a === b] on strings: same code units. *)
Fixpoint streqb (a b : jsstring) : bool :=
  match a, b with
  | [], [] => true
  | x :: a', y :: b' => N.eqb x y && streqb a' b'
  | _, _ => false
  end.

Definition DQUOTE : N := 34.
Definition BACKSLASH : N := 92.
Definition LF : N := 10.

(** [Number::toString] of a non-negative integer (the HTTP status inside a
    template literal): its decimal digits. *)
Fixpoint uint_digits (d : Decimal.uint) : jsstring :=
  match d with
  | Decimal.Nil => []
  | Decimal.D0 d' => ch "0" :: uint_digits d'
  | Decimal.D1 d' => ch "1" :: uint_digits d'
  | Decimal.D2 d' => ch "2" :: uint_digits d'
  | Decimal.D3 d' => ch "3" :: uint_digits d'
  | Decimal.D4 d' => ch "4" :: uint_digits d'
  | Decimal.D5 d' => ch "5" :: uint_digits d'
  | Decimal.D6 d' => ch "6" :: uint_digits d'
  | Decimal.D7 d' => ch "7" :: uint_digits d'
  | Decimal.D8 d' => ch "8" :: uint_digits d'
  | Decimal.D9 d' => ch "9" :: uint_digits d'
  end.

Definition Number_toString (n : N) : jsstring := uint_digits (N.to_uint n).

(** [s.startsWith(pat)]. *)
Fixpoint starts_with (pat s : jsstring) : bool :=
  match pat, s with
  | [], _ => true
  | p :: pat', c :: s' => N.eqb p c && starts_with pat' s'
  | _ :: _, [] => false
  end.

(** [s.replace(/pat/g, '')] for a literal, non-empty pattern: every match is
    dropped, scanning left to right, matches not overlapping.  [skip] counts
    the code units of the current match still to drop. *)
Fixpoint remove_from (pat : jsstring) (skip : nat) (s : jsstring) : jsstring :=
  match s with
  | [] => []
  | c :: r =>
      match skip with
      | S k => remove_from pat k r
      | O =>
          if starts_with pat (c :: r)
          then remove_from pat (List.length pat - 1) r
          else c :: remove_from pat 0 r
      end
  end.

Definition remove_all (pat s : jsstring) : jsstring := remove_from pat 0 s.

(** White space and line terminators of ECMAScript, which [trim] strips. *)
Definition is_trim_space (c : N) : bool :=
  let any := existsb (N.eqb c) in
  any [9; 10; 11; 12; 13; 32; 160; 5760; 8232; 8233; 8239; 8287; 12288; 65279]%N
  || (N.leb 8192 c && N.leb c 8202).

Fixpoint trimStart (s : jsstring) : jsstring :=
  match s with
  | c :: r => if is_trim_space c then trimStart r else s
  | [] => []
  end.

Definition trimEnd (s : jsstring) : jsstring := rev (trimStart (rev s)).

Definition trim (s : jsstring) : jsstring := trimEnd (trimStart s).

(** [s.split(',')]: always at least one piece. *)
Fixpoint split (sep : N) (s : jsstring) : list jsstring :=
  match s with
  | [] => [[]]
  | c :: r =>
      if N.eqb c sep then [] :: split sep r
      else match split sep r with
           | piece :: pieces => (c :: piece) :: pieces
           | [] => [[c]]
           end
  end.

(** ** JSON values and [JSON.parse] *)

Module JSON.

(** A number literal read by [JSON.parse]: its exact decimal value
    [(-1)^negative * digits * 10^exp10].  The engine rounds that value to the
    nearest double; the service looks at the type of the number only. *)
Record JSNumber := mkNumber { negative : bool; digits : N; exp10 : Z }.

Inductive JSValue :=
| JNull
| JBool (b : bool)
| JNumber (n : JSNumber)
| JString (s : jsstring)
| JArray (elements : list JSValue)
| JObject (members : list (jsstring * JSValue)).

(** The members of an object are kept in the order of the text, repeated
    keys included; reading a property takes the last one, as each member
    [JSON.parse] meets overwrites the property of the same name. *)
Fixpoint lookup (k : jsstring) (ms : list (jsstring * JSValue)) : option JSValue :=
  match ms with
  | [] => None
  | (k', v) :: ms' =>
      match lookup k ms' with
      | Some later => Some later
      | None => if streqb k k' then Some v else None
      end
  end.

(** The mathematical value of a number literal. *)
Definition MV (n : JSNumber) : Q :=
  ((if negative n then -1 else 1) * inject_Z (Z.of_N (digits n)) * 10 ^ exp10 n)%Q.

Definition number_of_N (n : N) : JSNumber := mkNumber false n 0.

(** Outcome of a parsing function: a value and the text left, a syntax
    error, or recursion budget exhausted. *)
Inductive PR (A : Type) :=
| POk (a : A) (rest : jsstring)
| PErr
| PFuel.
Arguments PErr {A}.
Arguments PFuel {A}.

(** JSON white space: tab, line feed, carriage return, space. *)
Definition is_ws (c : N) : bool := existsb (N.eqb c) [9; 10; 13; 32]%N.

Fixpoint skip_ws (s : jsstring) : jsstring :=
  match s with
  | c :: r => if is_ws c then skip_ws r else s
  | [] => []
  end.

Definition is_digit (c : N) : bool := N.leb 48 c && N.leb c 57.

Definition hex_value (c : N) : option N :=
  if is_digit c then Some (c - 48)%N
  else if N.leb 97 c && N.leb c 102 then Some (c - 87)%N
  else if N.leb 65 c && N.leb c 70 then Some (c - 55)%N
  else None.

Definition hex4 (a b c d : N) : option N :=
  match hex_value a, hex_value b, hex_value c, hex_value d with
  | Some x, Some y, Some z, Some w => Some (((x * 16 + y) * 16 + z) * 16 + w)%N
  | _, _, _, _ => None
  end.

(** The character a one-letter escape stands for. *)
Definition simple_escape (e : N) : option N :=
  if N.eqb e DQUOTE then Some DQUOTE
  else if N.eqb e BACKSLASH then Some BACKSLASH
  else if N.eqb e (ch "/") then Some (ch "/")
  else if N.eqb e (ch "b") then Some 8%N
  else if N.eqb e (ch "f") then Some 12%N
  else if N.eqb e (ch "n") then Some 10%N
  else if N.eqb e (ch "r") then Some 13%N
  else if N.eqb e (ch "t") then Some 9%N
  else None.

(** The text after an opening quote, up to the closing one.  [acc] holds the
    code units read so far, last first. *)
Fixpoint string_body (s : jsstring) (acc : jsstring) : option (jsstring * jsstring) :=
  match s with
  | [] => None
  | c :: r =>
      if N.eqb c DQUOTE then Some (rev acc, r)
      else if N.eqb c BACKSLASH then
        match r with
        | [] => None
        | e :: r' =>
            if N.eqb e (ch "u") then
              match r' with
              | h1 :: h2 :: h3 :: h4 :: r'' =>
                  match hex4 h1 h2 h3 h4 with
                  | Some u => string_body r'' (u :: acc)
                  | None => None
                  end
              | _ => None
              end
            else
              match simple_escape e with
              | Some x => string_body r' (x :: acc)
              | None => None
              end
        end
      else if N.ltb c 32 then None
      else string_body r (c :: acc)
  end.

(** The longest run of decimal digits at the head of [s], and what follows. *)
Fixpoint span_digits (s : jsstring) : jsstring * jsstring :=
  match s with
  | c :: r =>
      if is_digit c
      then let (ds, rest) := span_digits r in (c :: ds, rest)
      else ([], s)
  | [] => ([], [])
  end.

Definition digits_value (ds : jsstring) : N :=
  fold_left (fun acc d => (acc * 10 + (d - 48))%N) ds 0%N.

(** Integer part: a single [0], or a non-zero digit and further digits. *)
Definition int_part (s : jsstring) : option (jsstring * jsstring) :=
  match s with
  | c :: r =>
      if N.eqb c (ch "0") then Some ([c], r)
      else if is_digit c then Some (span_digits s)
      else None
  | [] => None
  end.

(** Optional fraction: a dot and at least one digit. *)
Definition frac_part (s : jsstring) : option (jsstring * jsstring) :=
  match s with
  | c :: r =>
      if N.eqb c (ch ".") then
        match span_digits r with
        | ([], _) => None
        | (fs, rest) => Some (fs, rest)
        end
      else Some ([], s)
  | [] => Some ([], [])
  end.

(** An optional [-] in front of a number. *)
Definition minus_sign (s : jsstring) : bool * jsstring :=
  match s with
  | c :: r => if N.eqb c (ch "-") then (true, r) else (false, s)
  | [] => (false, s)
  end.

(** An optional [-] or [+] in front of the digits of an exponent. *)
Definition exp_sign (s : jsstring) : bool * jsstring :=
  match s with
  | sg :: r =>
      if N.eqb sg (ch "-") then (true, r)
      else if N.eqb sg (ch "+") then (false, r)
      else (false, s)
  | [] => (false, s)
  end.

(** Optional exponent: [e] or [E], an optional sign, at least one digit. *)
Definition exp_part (s : jsstring) : option (Z * jsstring) :=
  match s with
  | c :: r =>
      if N.eqb c (ch "e") || N.eqb c (ch "E") then
        let '(minus, r1) := exp_sign r in
        match span_digits r1 with
        | ([], _) => None
        | (es, rest) =>
            let e := Z.of_N (digits_value es) in
            Some (if minus then (- e)%Z else e, rest)
        end
      else Some (0%Z, s)
  | [] => Some (0%Z, [])
  end.

Definition number (s : jsstring) : option (JSNumber * jsstring) :=
  let '(neg, s1) := minus_sign s in
  match int_part s1 with
  | None => None
  | Some (ip, s2) =>
      match frac_part s2 with
      | None => None
      | Some (fp, s3) =>
          match exp_part s3 with
          | None => None
          | Some (e, s4) =>
              Some (mkNumber neg (digits_value (ip ++ fp))
                             (e - Z.of_nat (List.length fp)), s4)
          end
      end
  end.

(** [true], [false], [null]: the letters after the first one. *)
Definition keyword (tail : string) (v : JSValue) (s : jsstring) : PR JSValue :=
  if starts_with (str tail) s then POk v (skipn (List.length (str tail)) s) else PErr.

Definition LBRACE : N := ch "{".
Definition RBRACE : N := ch "}".
Definition LBRACKET : N := ch "[".
Definition RBRACKET : N := ch "]".
Definition COMMA : N := ch ",".
Definition COLON : N := ch ":".

(** A JSON value, the elements of an array after [[], the members of an
    object after [{].  Every nested call spends one unit of [fuel]. *)
Fixpoint value (fuel : nat) (s : jsstring) {struct fuel} : PR JSValue :=
  match fuel with
  | O => PFuel
  | S fuel' =>
      match skip_ws s with
      | [] => PErr
      | c :: r =>
          if N.eqb c LBRACE then
            match skip_ws r with
            | c' :: r' =>
                if N.eqb c' RBRACE then POk (JObject []) r'
                else members fuel' [] r
            | [] => PErr
            end
          else if N.eqb c LBRACKET then
            match skip_ws r with
            | c' :: r' =>
                if N.eqb c' RBRACKET then POk (JArray []) r'
                else elements fuel' [] r
            | [] => PErr
            end
          else if N.eqb c DQUOTE then
            match string_body r [] with
            | Some (txt, rest) => POk (JString txt) rest
            | None => PErr
            end
          else if N.eqb c (ch "t") then keyword "rue" (JBool true) r
          else if N.eqb c (ch "f") then keyword "alse" (JBool false) r
          else if N.eqb c (ch "n") then keyword "ull" JNull r
          else
            match number (c :: r) with
            | Some (n, rest) => POk (JNumber n) rest
            | None => PErr
            end
      end
  end
with elements (fuel : nat) (acc : list JSValue) (s : jsstring) {struct fuel}
  : PR JSValue :=
  match fuel with
  | O => PFuel
  | S fuel' =>
      match value fuel' s with
      | POk v rest =>
          match skip_ws rest with
          | c :: r =>
              if N.eqb c COMMA then elements fuel' (v :: acc) r
              else if N.eqb c RBRACKET then POk (JArray (rev (v :: acc))) r
              else PErr
          | [] => PErr
          end
      | PErr => PErr
      | PFuel => PFuel
      end
  end
with members (fuel : nat) (acc : list (jsstring * JSValue)) (s : jsstring)
  {struct fuel} : PR JSValue :=
  match fuel with
  | O => PFuel
  | S fuel' =>
      match skip_ws s with
      | c :: r =>
          if N.eqb c DQUOTE then
            match string_body r [] with
            | Some (k, rest) =>
                match skip_ws rest with
                | c2 :: r2 =>
                    if N.eqb c2 COLON then
                      match value fuel' r2 with
                      | POk v rest2 =>
                          match skip_ws rest2 with
                          | c3 :: r3 =>
                              if N.eqb c3 COMMA
                              then members fuel' ((k, v) :: acc) r3
                              else if N.eqb c3 RBRACE
                              then POk (JObject (rev ((k, v) :: acc))) r3
                              else PErr
                          | [] => PErr
                          end
                      | PErr => PErr
                      | PFuel => PFuel
                      end
                    else PErr
                | [] => PErr
                end
            | None => PErr
            end
          else PErr
      | [] => PErr
      end
  end.

(** Recursion budget for a text: more than its parse can spend (see
    [value_fuel_enough]). *)
Definition budget (s : jsstring) : nat := 2 * List.length s + 1.

(** [JSON.parse(s)]: one value, white space around it, nothing else.  [None]
    is the [SyntaxError] the built-in throws. *)
Definition parse (s : jsstring) : option JSValue :=
  match value (budget s) s with
  | POk v rest =>
      match skip_ws rest with
      | [] => Some v
      | _ :: _ => None
      end
  | PErr => None
  | PFuel => None
  end.

End JSON.

Import JSON.

(** ** Collaborators and effects *)

(** What JavaScript code throws, or a promise rejects with. *)
Inductive Thrown :=
| Error (message : jsstring)      (* [new Error(message)] *)
| SyntaxError                     (* thrown by [JSON.parse] *)
| Rejection (reason : jsstring).  (* any other value a collaborator rejects with *)

Inductive Completion (A : Type) :=
| Normal (a : A)
| Throw (e : Thrown).
Arguments Throw {A}.

(** A [File] or [Blob]: an object the browser owns.  The service reads its
    [type] and [size] properties and hands the object itself to
    [FileReader]; [ref] tells two objects apart. *)
Record Blob := mkBlob { ref : N; type : jsstring; size : N }.

(** The client built by [new GoogleGenAI({ apiKey })]. *)
Record GoogleGenAI := mkClient { apiKey : jsstring }.

(** The [responseSchema] of the request. *)
Inductive Schema :=
| TypeNUMBER (description : jsstring)
| TypeSTRING
| TypeARRAY (items : Schema) (description : jsstring)
| TypeOBJECT (properties : list (jsstring * Schema)) (required : list jsstring).

Inductive Part :=
| TextPart (text : jsstring)
| InlineData (mimeType : jsstring) (data : option jsstring).

Record GenerateContentParameters := mkParams {
  model : jsstring;
  contents : list (list Part);
  responseMimeType : jsstring;
  responseSchema : Schema
}.

(** The answer of the inference service; [response.text] is a string, as the
    parameter of [processResponse] declares. *)
Record GenerateContentResponse := mkGenResponse { response_text : jsstring }.

(** The [Response] of [fetch]: [ok], [status], and what [blob()] settles to. *)
Record Response := mkResponse {
  ok : bool;
  status : N;
  blob : Completion Blob
}.

(** The answers of the collaborators. *)
Record World := mkWorld {
  fetch_answer : jsstring -> Completion Response;
  reader_answer : Blob -> Completion jsstring;
  generate_answer : GoogleGenAI -> GenerateContentParameters ->
                    Completion GenerateContentResponse
}.

Inductive LogArg :=
| LogText (s : jsstring)
| LogThrown (e : Thrown).

(** Calls made to the collaborators. *)
Inductive Event :=
| ConsoleError (label : jsstring) (arg : LogArg)
| Fetch (url : jsstring)
| ReadAsDataURL (file : Blob)
| GenerateContent (client : GoogleGenAI) (params : GenerateContentParameters).

(** Requests that leave the browser. *)
Definition is_network (e : Event) : bool :=
  match e with
  | Fetch _ | GenerateContent _ _ => true
  | ConsoleError _ _ | ReadAsDataURL _ => false
  end.

(** Calls of the remote inference service. *)
Definition is_inference (e : Event) : bool :=
  match e with
  | GenerateContent _ _ => true
  | _ => false
  end.

(** The static state of the class: [private static ai: GoogleGenAI],
    [undefined] until [initialize] runs. *)
Record ServiceState := mkState { ai : option GoogleGenAI }.

Definition uninitialized : ServiceState := mkState None.

(** What running a method gives: how it completes, the state it leaves, the
    events it caused, oldest first. *)
Record Run (A : Type) := mkRun {
  completion : Completion A;
  state_after : ServiceState;
  events : list Event
}.

Definition M (A : Type) : Type := World -> ServiceState -> Run A.

Definition ret {A} (a : A) : M A :=
  fun _ s => mkRun (Normal a) s [].

Definition throw {A} (e : Thrown) : M A :=
  fun _ s => mkRun (Throw e) s [].

Definition bind {A B} (m : M A) (k : A -> M B) : M B :=
  fun w s =>
    let r := m w s in
    match completion r with
    | Normal a =>
        let r' := k a w (state_after r) in
        mkRun (completion r') (state_after r') (events r ++ events r')
    | Throw e => mkRun (Throw e) (state_after r) (events r)
    end.

(** [try { m } catch (e) { handler e }]. *)
Definition try_catch {A} (m : M A) (handler : Thrown -> M A) : M A :=
  fun w s =>
    let r := m w s in
    match completion r with
    | Normal a => r
    | Throw e =>
        let r' := handler e w (state_after r) in
        mkRun (completion r') (state_after r') (events r ++ events r')
    end.

Definition emit (e : Event) : M unit :=
  fun _ s => mkRun (Normal tt) s [e].

(** Settle with what a collaborator answered. *)
Definition settle {A} (c : Completion A) : M A :=
  fun _ s => mkRun c s [].

Definition get_ai : M (option GoogleGenAI) :=
  fun _ s => mkRun (Normal (ai s)) s [].

Definition set_ai (c : GoogleGenAI) : M unit :=
  fun _ _ => mkRun (Normal tt) (mkState (Some c)) [].

Definition ask {A} (f : World -> A) : M A :=
  fun w s => mkRun (Normal (f w)) s [].

Declare Scope js_scope.
Delimit Scope js_scope with js.
Notation "x <- m ;; k" := (bind m (fun x => k))
  (at level 100, m at next level, right associativity) : js_scope.
Notation "m ;; k" := (bind m (fun _ => k))
  (at level 100, right associativity) : js_scope.
Open Scope js_scope.

Definition console_error (label : string) (arg : LogArg) : M unit :=
  emit (ConsoleError (str label) arg).

(** [await fetch(url)]. *)
Definition fetch (url : jsstring) : M Response :=
  emit (Fetch url) ;;
  answer <- ask fetch_answer ;;
  settle (answer url).

(** [await this.ai.models.generateContent(params)]. *)
Definition generateContent (client : GoogleGenAI) (params : GenerateContentParameters)
  : M GenerateContentResponse :=
  emit (GenerateContent client params) ;;
  answer <- ask generate_answer ;;
  settle (answer client params).

(** ** Values as the structure check sees them *)

(** [v?.k] for a key that no prototype defines: [undefined] ([None]) unless
    [v] is an object with that member. *)
Definition optional_get (v : JSValue) (k : string) : option JSValue :=
  match v with
  | JObject ms => lookup (str k) ms
  | _ => None
  end.

Definition typeof (v : option JSValue) : jsstring :=
  match v with
  | None => str "undefined"
  | Some JNull => str "object"
  | Some (JBool _) => str "boolean"
  | Some (JNumber _) => str "number"
  | Some (JString _) => str "string"
  | Some (JArray _) => str "object"
  | Some (JObject _) => str "object"
  end.

Definition Array_isArray (v : option JSValue) : bool :=
  match v with
  | Some (JArray _) => true
  | _ => false
  end.

(** ** The service *)

(** The interface [ResumeAnalysisResult] exists for the type checker only:
    what [processResponse] returns is the parsed value itself. *)
Definition ResumeAnalysisResult := JSValue.

Definition PDF : jsstring := str "application/pdf".

Definition initialize (key : jsstring) : M unit :=
  set_ai (mkClient key).

(** [fileToBase64]: the part of the data URL after the first comma, up to
    the next one ([undefined] when there is none). *)
Definition fileToBase64 (file : Blob) : M (option jsstring) :=
  emit (ReadAsDataURL file) ;;
  answer <- ask reader_answer ;;
  result <- settle (answer file) ;;
  ret (nth_error (split (ch ",") result) 1).

Definition getAnalysisPrompt : M jsstring :=
  ret (str "
      Analyze this resume PDF and provide detailed feedback in the specified JSON format.
      
      As a professional career coach with 10+ years experience, evaluate:
      
      1. CONTENT QUALITY:
      - Relevance to modern hiring practices
      - Clarity and impact of professional summary
      - Effectiveness of work experience descriptions
      
      2. ACHIEVEMENTS:
      - Use of action verbs and power words
      - Quantifiable results and metrics
      - Demonstrated impact in roles
      
      3. TECHNICAL PRESENTATION:
      - Skills section organization
      - Technical proficiency demonstration
      - Certifications and education
      
      4. DESIGN & FORMATTING:
      - Visual hierarchy and readability
      - Consistency in styling
      - ATS (Applicant Tracking System) compatibility
      
      5. OVERALL EFFECTIVENESS:
      - Strength for target industry/role
      - Competitive edge
      - Areas needing improvement
      
      Provide specific, actionable suggestions.
      Highlight 3-5 key strengths.
      Be professional but constructive.
      
      Return ONLY the JSON object in the specified format.
    ").

Definition analysisSchema : Schema :=
  TypeOBJECT
    [(str "score", TypeNUMBER (str "Overall resume quality score (0-100)"));
     (str "improvements",
       TypeARRAY
         (TypeOBJECT [(str "category", TypeSTRING); (str "suggestion", TypeSTRING)] [])
         (str "List of suggested improvements"));
     (str "strengths", TypeARRAY TypeSTRING (str "List of resume strengths"))]
    [str "score"; str "improvements"; str "strengths"].

Definition JSON_parse (s : jsstring) : M JSValue :=
  match parse s with
  | Some v => ret v
  | None => throw SyntaxError
  end.

Definition FENCE_JSON : jsstring := str "```json".
Definition FENCE : jsstring := str "```".

(** The text handed to [JSON.parse]. *)
Definition clean (text : jsstring) : jsstring :=
  trim (remove_all FENCE (remove_all FENCE_JSON text)).

Definition processResponse (text : jsstring) : M ResumeAnalysisResult :=
  try_catch
    (let jsonString := clean text in
     result <- JSON_parse jsonString ;;
     if negb (streqb (typeof (optional_get result "score")) (str "number"))
        || negb (Array_isArray (optional_get result "improvements"))
        || negb (Array_isArray (optional_get result "strengths"))
     then throw (Error (str "Invalid response structure"))
     else ret result)
    (fun e =>
       console_error "Failed to process response:" (LogText text) ;;
       throw (Error (str "Failed to parse analysis results"))).

Definition analyzeWithGemini (file : Blob) : M ResumeAnalysisResult :=
  client <- get_ai ;;
  match client with
  | None =>
      throw (Error (str "Service not initialized. Call ResumeService.initialize() first."))
  | Some client =>
      base64Data <- fileToBase64 file ;;
      prompt <- getAnalysisPrompt ;;
      response <- generateContent client
        (mkParams (str "gemini-2.5-flash")
                  [[TextPart prompt; InlineData (type file) base64Data]]
                  (str "application/json")
                  analysisSchema) ;;
      processResponse (response_text response)
  end.

Definition MAX_SIZE : N := 4 * 1024 * 1024.

Definition analyzeResume (file : Blob) : M ResumeAnalysisResult :=
  try_catch
    (if negb (streqb (type file) PDF)
     then throw (Error (str "Only PDF files are supported"))
     else if N.ltb MAX_SIZE (size file)
     then throw (Error (str "File size must be less than 4MB"))
     else analyzeWithGemini file)
    (fun error =>
       console_error "Resume analysis failed:" (LogThrown error) ;;
       throw error).

Definition analyzeResumeFromUrl (url : jsstring) : M ResumeAnalysisResult :=
  try_catch
    (response <- fetch url ;;
     if negb (ok response)
     then throw (Error (str "Failed to fetch PDF: " ++ Number_toString (status response)))
     else
       blob <- settle (blob response) ;;
       if negb (streqb (type blob) PDF)
       then throw (Error (str "URL does not point to a PDF file"))
       else analyzeWithGemini blob)
    (fun error =>
       console_error "URL analysis failed:" (LogThrown error) ;;
       throw error).

(** ** The errors of the specification, as the code raises them *)

Definition NotInitialized : Thrown :=
  Error (str "Service not initialized. Call ResumeService.initialize() first.").
Definition UnsupportedMediaType : Thrown := Error (str "Only PDF files are supported").
Definition PayloadTooLarge : Thrown := Error (str "File size must be less than 4MB").
Definition FetchFailure (status : N) : Thrown :=
  Error (str "Failed to fetch PDF: " ++ Number_toString status).
Definition NotAPdfUrl : Thrown := Error (str "URL does not point to a PDF file").
Definition MalformedResponse : Thrown := Error (str "Failed to parse analysis results").
Definition SchemaViolation : Thrown := Error (str "Invalid response structure").

(** JSON text written with ['] for the double quote. *)
Definition json (s : string) : jsstring :=
  map (fun c => if N.eqb c (ch "'") then DQUOTE else c) (str s).

(** ** Inputs and worlds of the examples *)

(** A world whose collaborators all fail. *)
Definition offline : World :=
  mkWorld (fun _ => Throw (Rejection (str "TypeError: Failed to fetch")))
          (fun _ => Throw (Rejection (str "ProgressEvent")))
          (fun _ _ => Throw (Rejection (str "ApiError"))).

Definition text_file : Blob := mkBlob 1 (str "text/plain") 10.
Definition small_pdf : Blob := mkBlob 2 PDF 1024.
Definition pdf_4MiB : Blob := mkBlob 3 PDF (4 * 1024 * 1024).
Definition pdf_5MiB : Blob := mkBlob 4 PDF (5 * 1024 * 1024).

Definition score_high : jsstring :=
  json "{'score':'high','improvements':[],'strengths':[]}".

Definition score_150 : jsstring :=
  json "{'score':150,'improvements':[],'strengths':[]}".

Definition fenced_82 : jsstring :=
  str "```json" ++ [LF]
  ++ json "{'score':82,'improvements':[{'category':'Metrics','suggestion':'Quantify impact'}],'strengths':['Clear formatting']}"
  ++ [LF] ++ str "```".

Definition result_82 : JSValue :=
  JObject
    [(str "score", JNumber (number_of_N 82));
     (str "improvements",
       JArray [JObject [(str "category", JString (str "Metrics"));
                        (str "suggestion", JString (str "Quantify impact"))]]);
     (str "strengths", JArray [JString (str "Clear formatting")])].

Definition result_150 : JSValue :=
  JObject
    [(str "score", JNumber (number_of_N 150));
     (str "improvements", JArray []);
     (str "strengths", JArray [])].

Definition resume_url : jsstring := str "https://example.org/resume.pdf".
Definition data_url : jsstring := str "data:application/pdf;base64,JVBERi0xLjQK".
Definition test_client : GoogleGenAI := mkClient (str "key").
Definition initialized : ServiceState := mkState (Some test_client).

(** The fetch gives a PDF of 5 MiB, the reader its data URL, and the
    inference service a well-formed answer with score 150. *)
Definition online : World :=
  mkWorld (fun _ => Normal (mkResponse true 200 (Normal pdf_5MiB)))
          (fun _ => Normal data_url)
          (fun _ _ => Normal (mkGenResponse score_150)).

(** A world where the fetch ends with status 404, and one where it gives a
    text document. *)
Definition not_found : World :=
  mkWorld (fun _ => Normal (mkResponse false 404 (Normal text_file)))
          (fun _ => Normal data_url)
          (fun _ _ => Normal (mkGenResponse score_150)).

Definition serves_text : World :=
  mkWorld (fun _ => Normal (mkResponse true 200 (Normal text_file)))
          (fun _ => Normal data_url)
          (fun _ _ => Normal (mkGenResponse score_150)).

(** ** What the properties speak of *)

(** No event of a run left the browser. *)
Definition no_network (evs : list Event) : Prop :=
  forall e, In e evs -> is_network e = false.

(** No event of a run is a call of the inference service. *)
Definition no_inference (evs : list Event) : Prop :=
  forall e, In e evs -> is_inference e = false.

(** The three conditions of the structure check, negated as in the source. *)
Definition structure_violated (result : JSValue) : bool :=
  negb (streqb (typeof (optional_get result "score")) (str "number"))
  || negb (Array_isArray (optional_get result "improvements"))
  || negb (Array_isArray (optional_get result "strengths")).

(** What the structure check establishes. *)
Definition checked_structure (r : JSValue) : Prop :=
  exists n improvements strengths,
    optional_get r "score" = Some (JNumber n)
    /\ optional_get r "improvements" = Some (JArray improvements)
    /\ optional_get r "strengths" = Some (JArray strengths).

(** The invariant the specification gives for an AnalysisResult: the checked
    structure, and the score within 0..100. *)
Definition AnalysisResult_invariant (r : JSValue) : Prop :=
  exists n improvements strengths,
    optional_get r "score" = Some (JNumber n)
    /\ (0 <= MV n)%Q /\ (MV n <= 100)%Q
    /\ optional_get r "improvements" = Some (JArray improvements)
    /\ optional_get r "strengths" = Some (JArray strengths).

(** Values a caller can get back from the service. *)
Inductive returned_by_service (r : JSValue) : Prop :=
| by_processResponse (text : jsstring) (w : World) (s : ServiceState) :
    completion (processResponse text w s) = Normal r -> returned_by_service r
| by_analyzeResume (file : Blob) (w : World) (s : ServiceState) :
    completion (analyzeResume file w s) = Normal r -> returned_by_service r
| by_analyzeResumeFromUrl (url : jsstring) (w : World) (s : ServiceState) :
    completion (analyzeResumeFromUrl url w s) = Normal r -> returned_by_service r.

(** The run of [processResponse] that fails. *)
Definition failed_response (text : jsstring) (s : ServiceState) : Run ResumeAnalysisResult :=
  mkRun (Throw MalformedResponse) s
        [ConsoleError (str "Failed to process response:") (LogText text)].

(** The fixed text [getAnalysisPrompt] returns. *)
Definition prompt_text : jsstring :=
  match completion (getAnalysisPrompt offline uninitialized) with
  | Normal t => t
  | Throw _ => []
  end.

(** The request [analyzeWithGemini] sends for [file] once its data is read. *)
Definition analysisRequest (file : Blob) (base64Data : option jsstring)
  : GenerateContentParameters :=
  mkParams (str "gemini-2.5-flash")
           [[TextPart prompt_text; InlineData (type file) base64Data]]
           (str "application/json")
           analysisSchema.

(** The [catch] block of both entry points: log, then throw again. *)
Definition rethrow (label : string) (error : Thrown) : M ResumeAnalysisResult :=
  console_error label (LogThrown error) ;; throw error.

(** The run of [analyzeResume] that a failed validation gives. *)
Definition rejected (error : Thrown) (s : ServiceState) : Run ResumeAnalysisResult :=
  mkRun (Throw error) s
        [ConsoleError (str "Resume analysis failed:") (LogThrown error)].

(** The run of [analyzeResumeFromUrl] that fails before the inference call. *)
Definition url_rejected (url : jsstring) (error : Thrown) (s : ServiceState)
  : Run ResumeAnalysisResult :=
  mkRun (Throw error) s
        [Fetch url; ConsoleError (str "URL analysis failed:") (LogThrown error)].

(** The calls of the inference service among the events of a run. *)
Definition inference_calls (evs : list Event) : list Event :=
  filter is_inference evs.

Ltac run_monad :=
  cbv beta iota zeta delta
    [bind try_catch ret throw emit settle ask get_ai set_ai console_error
     fetch generateContent fileToBase64 getAnalysisPrompt
     completion state_after events app].

(** ** The page that calls the service (ResumeCheckerApp)

    The component keeps four state variables.  A handler is given here as
    the calls it makes, in order: the state setters, [preventDefault],
    [console.error] and whatever [analyzeResume] causes.  The state after a
    handler is the state it started from with the setters applied in that
    order.  Handlers are taken one at a time: each one finishes before the
    next event of the page is handled. *)

Module App.

Record State := mkApp {
  file : option Blob;
  isLoading : bool;
  result : option ResumeAnalysisResult;
  error : option jsstring
}.

(** [useState(null)], [useState(false)], [useState(null)], [useState(null)]. *)
Definition initial : State := mkApp None false None None.

Inductive Effect :=
| PreventDefault
| SetFile (f : option Blob)
| SetIsLoading (b : bool)
| SetResult (r : option ResumeAnalysisResult)
| SetError (e : option jsstring)
| LogError (err : Thrown)         (* [console.error(err)] *)
| Service (e : Event).            (* caused inside [ResumeService] *)

Definition update (st : State) (e : Effect) : State :=
  match e with
  | SetFile f => mkApp f (isLoading st) (result st) (error st)
  | SetIsLoading b => mkApp (file st) b (result st) (error st)
  | SetResult r => mkApp (file st) (isLoading st) r (error st)
  | SetError m => mkApp (file st) (isLoading st) (result st) m
  | PreventDefault | LogError _ | Service _ => st
  end.

Definition after (st : State) (effects : list Effect) : State :=
  fold_left update effects st.

(** [e.target.files?.[0] || null]: [files] is the [FileList] of the input,
    or [null]. *)
Definition first_file (files : option (list Blob)) : option Blob :=
  match files with
  | Some (f :: _) => Some f
  | Some [] | None => None
  end.

Definition handleFileChange (files : option (list Blob)) : list Effect :=
  let selectedFile := first_file files in
  [SetError None; SetResult None]
  ++ match selectedFile with
     | None => []
     | Some selected =>
         if negb (streqb (type selected) (str "application/pdf"))
         then [SetError (Some (str "Please upload a PDF file only"))]
         else [SetFile (Some selected)]
     end.

(** The effects of [handleSubmit] in a render whose state is [st], and the
    state the service is left in. *)
Definition handleSubmit (st : State) (w : World) (s : ServiceState)
  : list Effect * ServiceState :=
  match file st with
  | None =>
      ([PreventDefault; SetError (Some (str "Please select a PDF file first"))], s)
  | Some f =>
      let r := analyzeResume f w s in
      ([PreventDefault; SetIsLoading true; SetError None]
       ++ map Service (events r)
       ++ match completion r with
          | Normal analysisResult => [SetResult (Some analysisResult)]
          | Throw err =>
              [SetError (Some (str "An error occurred while analyzing your resume. Please try again."));
               LogError err]
          end
       ++ [SetIsLoading false],
       state_after r)
  end.

(** What the user does: pick files in the input, or submit the form (the
    collaborators then answer as [w] says). *)
Inductive Action :=
| Change (files : option (list Blob))
| Submit (w : World).

Definition step (p : State * ServiceState) (a : Action) : State * ServiceState :=
  match a with
  | Change files => (after (fst p) (handleFileChange files), snd p)
  | Submit w =>
      (after (fst p) (fst (handleSubmit (fst p) w (snd p))),
       snd (handleSubmit (fst p) w (snd p)))
  end.

Definition session (acts : list Action) (st : State) (s : ServiceState)
  : State * ServiceState :=
  fold_left step acts (st, s).

(** The calls of the service among the effects of a handler. *)
Definition service_events (effects : list Effect) : list Event :=
  flat_map (fun e => match e with Service ev => [ev] | _ => [] end) effects.

Definition GENERIC_ERROR : jsstring :=
  str "An error occurred while analyzing your resume. Please try again.".

End App.

(** ** Further notions for the properties *)

Definition BACKTICK : N := ch "`".
Definition COMMA_CHAR : N := ch ",".

(** No code unit of [s] is [c]. *)
Definition free_of (c : N) (s : jsstring) : Prop :=
  forall x, In x s -> x <> c.

(** [s.includes(pat)]. *)
Fixpoint contains (pat s : jsstring) : bool :=
  starts_with pat s
  || match s with
     | [] => false
     | _ :: r => contains pat r
     end.

Definition is_fetch (e : Event) : bool :=
  match e with
  | Fetch _ => true
  | _ => false
  end.

(** The calls of [fetch] among the events of a run. *)
Definition fetch_calls (evs : list Event) : list Event :=
  filter is_fetch evs.

(** [initialize] twice, then [analyzeResume]. *)
Definition reinitialize_then_analyze (key1 key2 : jsstring) (file : Blob)
  : M ResumeAnalysisResult :=
  initialize key1 ;; initialize key2 ;; analyzeResume file.

(** What holds of the state of the page between two events: nothing is
    loading, and the file kept is a PDF. *)
Definition page_invariant (st : App.State) : Prop :=
  App.isLoading st = false
  /\ forall f, App.file st = Some f -> type f = PDF.

(** A PDF picked in the page, then a text file. *)
Definition pdf_then_text : list App.Action :=
  [App.Change (Some [small_pdf]); App.Change (Some [text_file])].

(** A world whose reader gives a result with no comma. *)
Definition empty_read : World :=
  mkWorld (fun _ => Normal (mkResponse true 200 (Normal small_pdf)))
          (fun _ => Normal (str "data:"))
          (fun _ _ => Normal (mkGenResponse score_150)).

(** A world where the fetch ends with status 500. *)
Definition server_error : World :=
  mkWorld (fun _ => Normal (mkResponse false 500 (Normal text_file)))
          (fun _ => Normal data_url)
          (fun _ _ => Normal (mkGenResponse score_150)).

(** A world whose inference service rejects the request. *)
Definition quota_exceeded : World :=
  mkWorld (fun _ => Normal (mkResponse true 200 (Normal small_pdf)))
          (fun _ => Normal data_url)
          (fun _ _ => Throw (Rejection (str "ApiError: 429"))).

(** * Properties *)

(** ** The recursion budget of [JSON.parse] is never exhausted *)

Section Budget.

Local Open Scope nat_scope.

Lemma skip_ws_cons (s : jsstring) (c : N) (r : jsstring) :
  skip_ws s = c :: r -> List.length r < List.length s.
Proof.
  induction s as [|x s IH]; simpl; [discriminate|].
  destruct (is_ws x).
  - intros H. apply IH in H. lia.
  - intros H. injection H as _ <-. lia.
Qed.

Lemma string_body_shorter (n : nat) :
  forall s acc k rest,
    List.length s <= n ->
    string_body s acc = Some (k, rest) -> List.length rest < List.length s.
Proof.
  induction n as [|n IH]; intros [|c r] acc k rest Hn;
    cbn [string_body List.length] in *; try discriminate; try lia.
  destruct (N.eqb c DQUOTE).
  { intros H. injection H as _ <-. lia. }
  destruct (N.eqb c BACKSLASH).
  { destruct r as [|e r']; [discriminate|].
    destruct (N.eqb e (ch "u")).
    - destruct r' as [|h1 [|h2 [|h3 [|h4 r'']]]]; try discriminate.
      destruct (hex4 h1 h2 h3 h4); [|discriminate].
      intros H. apply IH in H; cbn [List.length] in *; lia.
    - destruct (simple_escape e); [|discriminate].
      intros H. apply IH in H; cbn [List.length] in *; lia. }
  destruct (N.ltb c 32); [discriminate|].
  intros H. apply IH in H; lia.
Qed.

Lemma string_body_rest (s acc k rest : jsstring) :
  string_body s acc = Some (k, rest) -> List.length rest < List.length s.
Proof. apply string_body_shorter with (n := List.length s). lia. Qed.

Lemma span_digits_rest (s : jsstring) :
  List.length (snd (span_digits s)) <= List.length s.
Proof.
  induction s as [|c r IH]; simpl; [lia|].
  destruct (is_digit c); simpl; [|lia].
  destruct (span_digits r). simpl in *. lia.
Qed.

Lemma int_part_shorter (s ip rest : jsstring) :
  int_part s = Some (ip, rest) -> List.length rest < List.length s.
Proof.
  destruct s as [|c r]; cbn [int_part List.length]; [discriminate|].
  destruct (N.eqb c (ch "0")).
  { intros H. injection H as _ <-. lia. }
  destruct (is_digit c) eqn:Hd; [|discriminate].
  pose proof (span_digits_rest (c :: r)) as Hr.
  destruct (span_digits (c :: r)) as [ds rest'] eqn:Hspan.
  intros H. injection H as _ <-.
  cbn [span_digits] in Hspan. rewrite Hd in Hspan.
  pose proof (span_digits_rest r) as Hr'.
  destruct (span_digits r) as [ds' rest'']. injection Hspan as _ <-.
  cbn [snd List.length] in *. lia.
Qed.

Lemma frac_part_rest (s fp rest : jsstring) :
  frac_part s = Some (fp, rest) -> List.length rest <= List.length s.
Proof.
  destruct s as [|c r]; cbn [frac_part List.length].
  { intros H. injection H as _ <-. simpl. lia. }
  destruct (N.eqb c (ch ".")).
  - pose proof (span_digits_rest r) as Hr.
    destruct (span_digits r) as [[|d ds] rest']; [discriminate|].
    intros H. injection H as _ <-. simpl in Hr. lia.
  - intros H. injection H as _ <-. simpl. lia.
Qed.

Lemma minus_sign_rest (s : jsstring) :
  List.length (snd (minus_sign s)) <= List.length s.
Proof.
  destruct s as [|c r]; cbn [minus_sign]; [simpl; lia|].
  destruct (N.eqb c (ch "-")); simpl; lia.
Qed.

Lemma exp_sign_rest (s : jsstring) :
  List.length (snd (exp_sign s)) <= List.length s.
Proof.
  destruct s as [|c r]; cbn [exp_sign]; [simpl; lia|].
  destruct (N.eqb c (ch "-")); [|destruct (N.eqb c (ch "+"))]; simpl; lia.
Qed.

Lemma exp_part_rest (s rest : jsstring) (e : Z) :
  exp_part s = Some (e, rest) -> List.length rest <= List.length s.
Proof.
  destruct s as [|c r]; cbn [exp_part List.length].
  { intros H. injection H as _ <-. simpl. lia. }
  destruct (N.eqb c (ch "e") || N.eqb c (ch "E")).
  - pose proof (exp_sign_rest r) as Hs.
    destruct (exp_sign r) as [minus r1]. cbn [snd] in Hs.
    pose proof (span_digits_rest r1) as Hr.
    destruct (span_digits r1) as [[|d ds] rest']; [discriminate|].
    intros H. injection H as _ <-. cbn [snd] in Hr. lia.
  - intros H. injection H as _ <-. simpl. lia.
Qed.

Lemma number_shorter (s rest : jsstring) (n : JSNumber) :
  number s = Some (n, rest) -> List.length rest < List.length s.
Proof.
  unfold number.
  pose proof (minus_sign_rest s) as Hs.
  destruct (minus_sign s) as [neg s1]. cbn [snd] in Hs.
  destruct (int_part s1) as [[ip s2]|] eqn:Hi; [|discriminate].
  destruct (frac_part s2) as [[fp s3]|] eqn:Hf; [|discriminate].
  destruct (exp_part s3) as [[e s4]|] eqn:He; [|discriminate].
  apply int_part_shorter in Hi. apply frac_part_rest in Hf.
  apply exp_part_rest in He.
  intros H. injection H as _ <-. lia.
Qed.

Lemma keyword_rest (tail : string) (v v' : JSValue) (s rest : jsstring) :
  keyword tail v s = POk v' rest -> List.length rest <= List.length s.
Proof.
  unfold keyword. destruct (starts_with (str tail) s); [|discriminate].
  intros H. injection H as _ <-. rewrite length_skipn. lia.
Qed.

Lemma parse_shorter (f : nat) :
  (forall s v rest, value f s = POk v rest -> List.length rest < List.length s)
  /\ (forall acc s v rest,
        elements f acc s = POk v rest -> List.length rest < List.length s)
  /\ (forall acc s v rest,
        members f acc s = POk v rest -> List.length rest < List.length s).
Proof.
  induction f as [|f (IHv & IHe & IHm)]; [repeat split; discriminate|].
  repeat split.
  - intros s v rest. cbn [value].
    destruct (skip_ws s) as [|c r] eqn:Hs; [discriminate|].
    apply skip_ws_cons in Hs.
    destruct (N.eqb c LBRACE).
    { destruct (skip_ws r) as [|c' r'] eqn:Hr; [discriminate|].
      apply skip_ws_cons in Hr.
      destruct (N.eqb c' RBRACE); intros H.
      - injection H as _ <-. lia.
      - apply IHm in H. lia. }
    destruct (N.eqb c LBRACKET).
    { destruct (skip_ws r) as [|c' r'] eqn:Hr; [discriminate|].
      apply skip_ws_cons in Hr.
      destruct (N.eqb c' RBRACKET); intros H.
      - injection H as _ <-. lia.
      - apply IHe in H. lia. }
    destruct (N.eqb c DQUOTE).
    { destruct (string_body r []) as [[txt rest']|] eqn:Hb; [|discriminate].
      apply string_body_rest in Hb.
      intros H. injection H as _ <-. lia. }
    destruct (N.eqb c (ch "t")); [intros H; apply keyword_rest in H; lia|].
    destruct (N.eqb c (ch "f")); [intros H; apply keyword_rest in H; lia|].
    destruct (N.eqb c (ch "n")); [intros H; apply keyword_rest in H; lia|].
    destruct (number (c :: r)) as [[n rest']|] eqn:Hn; [|discriminate].
    apply number_shorter in Hn. cbn [List.length] in Hn.
    intros H. injection H as _ <-. lia.
  - intros acc s v rest. cbn [elements].
    destruct (value f s) as [v1 rest1| |] eqn:Hv; try discriminate.
    apply IHv in Hv.
    destruct (skip_ws rest1) as [|c r] eqn:Hr; [discriminate|].
    apply skip_ws_cons in Hr.
    destruct (N.eqb c COMMA); [intros H; apply IHe in H; lia|].
    destruct (N.eqb c RBRACKET); [|discriminate].
    intros H. injection H as _ <-. lia.
  - intros acc s v rest. cbn [members].
    destruct (skip_ws s) as [|c r] eqn:Hs; [discriminate|].
    apply skip_ws_cons in Hs.
    destruct (N.eqb c DQUOTE); [|discriminate].
    destruct (string_body r []) as [[k rest0]|] eqn:Hb; [|discriminate].
    apply string_body_rest in Hb.
    destruct (skip_ws rest0) as [|c2 r2] eqn:Hr2; [discriminate|].
    apply skip_ws_cons in Hr2.
    destruct (N.eqb c2 COLON); [|discriminate].
    destruct (value f r2) as [v1 rest2| |] eqn:Hv; try discriminate.
    apply IHv in Hv.
    destruct (skip_ws rest2) as [|c3 r3] eqn:Hr3; [discriminate|].
    apply skip_ws_cons in Hr3.
    destruct (N.eqb c3 COMMA); [intros H; apply IHm in H; lia|].
    destruct (N.eqb c3 RBRACE); [|discriminate].
    intros H. injection H as _ <-. lia.
Qed.

Lemma parse_fuel (f : nat) :
  (forall s, 2 * List.length s < f -> value f s <> PFuel)
  /\ (forall acc s, 2 * List.length s + 1 < f -> elements f acc s <> PFuel)
  /\ (forall acc s, 2 * List.length s + 1 < f -> members f acc s <> PFuel).
Proof.
  induction f as [|f (IHv & IHe & IHm)]; [repeat split; intros; lia|].
  destruct (parse_shorter f) as (Sv & Se & Sm).
  repeat split.
  - intros s Hf. cbn [value].
    destruct (skip_ws s) as [|c r] eqn:Hs; [discriminate|].
    apply skip_ws_cons in Hs.
    destruct (N.eqb c LBRACE).
    { destruct (skip_ws r) as [|c' r'] eqn:Hr; [discriminate|].
      destruct (N.eqb c' RBRACE); [discriminate|].
      apply IHm. lia. }
    destruct (N.eqb c LBRACKET).
    { destruct (skip_ws r) as [|c' r'] eqn:Hr; [discriminate|].
      destruct (N.eqb c' RBRACKET); [discriminate|].
      apply IHe. lia. }
    destruct (N.eqb c DQUOTE).
    { destruct (string_body r []) as [[txt rest']|]; discriminate. }
    unfold keyword.
    destruct (N.eqb c (ch "t")); [destruct (starts_with _ r); discriminate|].
    destruct (N.eqb c (ch "f")); [destruct (starts_with _ r); discriminate|].
    destruct (N.eqb c (ch "n")); [destruct (starts_with _ r); discriminate|].
    destruct (number (c :: r)) as [[n rest']|]; discriminate.
  - intros acc s Hf. cbn [elements].
    destruct (value f s) as [v1 rest1| |] eqn:Hv; [|discriminate|].
    + apply Sv in Hv.
      destruct (skip_ws rest1) as [|c r] eqn:Hr; [discriminate|].
      apply skip_ws_cons in Hr.
      destruct (N.eqb c COMMA); [apply IHe; lia|].
      destruct (N.eqb c RBRACKET); discriminate.
    + exfalso. revert Hv. apply IHv. lia.
  - intros acc s Hf. cbn [members].
    destruct (skip_ws s) as [|c r] eqn:Hs; [discriminate|].
    apply skip_ws_cons in Hs.
    destruct (N.eqb c DQUOTE); [|discriminate].
    destruct (string_body r []) as [[k rest0]|] eqn:Hb; [|discriminate].
    apply string_body_rest in Hb.
    destruct (skip_ws rest0) as [|c2 r2] eqn:Hr2; [discriminate|].
    apply skip_ws_cons in Hr2.
    destruct (N.eqb c2 COLON); [|discriminate].
    destruct (value f r2) as [v1 rest2| |] eqn:Hv; [|discriminate|].
    + apply Sv in Hv.
      destruct (skip_ws rest2) as [|c3 r3] eqn:Hr3; [discriminate|].
      apply skip_ws_cons in Hr3.
      destruct (N.eqb c3 COMMA); [apply IHm; lia|].
      destruct (N.eqb c3 RBRACE); discriminate.
    + exfalso. revert Hv. apply IHv. lia.
Qed.

(** [JSON.parse] answers [None] for a syntax error only: the budget it
    starts with is enough for every text. *)
Lemma value_fuel_enough (s : jsstring) : value (budget s) s <> PFuel.
Proof. apply parse_fuel. unfold budget. lia. Qed.

End Budget.

(** ** Strings *)

Lemma streqb_eq (a b : jsstring) : streqb a b = true <-> a = b.
Proof.
  revert b; induction a as [|x a IH]; intros [|y b]; simpl; split;
    try congruence; try reflexivity.
  - intros H. apply andb_true_iff in H as [Hx Hab].
    apply N.eqb_eq in Hx. apply IH in Hab. congruence.
  - intros H. injection H as -> ->.
    rewrite N.eqb_refl. simpl. now apply IH.
Qed.

Lemma streqb_neq (a b : jsstring) : streqb a b = false <-> a <> b.
Proof.
  split.
  - intros H E. apply streqb_eq in E. congruence.
  - intros H. destruct (streqb a b) eqn:E; [|reflexivity].
    apply streqb_eq in E. contradiction.
Qed.

Lemma streqb_refl (a : jsstring) : streqb a a = true.
Proof. now apply streqb_eq. Qed.

(** ** The structure check *)

Lemma typeof_number (o : option JSValue) :
  streqb (typeof o) (str "number") = true -> exists n, o = Some (JNumber n).
Proof.
  destruct o as [[| | n | | |]|]; simpl; try discriminate.
  intros _. now exists n.
Qed.

Lemma isArray_array (o : option JSValue) :
  Array_isArray o = true -> exists l, o = Some (JArray l).
Proof.
  destruct o as [[| | | | l |]|]; simpl; try discriminate.
  intros _. now exists l.
Qed.

Lemma structure_kept (r : JSValue) :
  structure_violated r = false -> checked_structure r.
Proof.
  unfold structure_violated. intros H.
  apply orb_false_iff in H as [H Hs].
  apply orb_false_iff in H as [Hn Hi].
  apply negb_false_iff in Hn, Hi, Hs.
  destruct (typeof_number _ Hn) as [n En].
  destruct (isArray_array _ Hi) as [li Ei].
  destruct (isArray_array _ Hs) as [ls Es].
  now exists n, li, ls.
Qed.

Lemma structure_broken (r : JSValue) :
  (forall n, optional_get r "score" <> Some (JNumber n))
  \/ (forall l, optional_get r "improvements" <> Some (JArray l))
  \/ (forall l, optional_get r "strengths" <> Some (JArray l)) ->
  structure_violated r = true.
Proof.
  intros H. destruct (structure_violated r) eqn:E; [reflexivity|].
  destruct (structure_kept _ E) as (n & li & ls & Hn & Hi & Hs).
  destruct H as [H|[H|H]]; exfalso; eapply H; eassumption.
Qed.

(** ** Runs of the methods *)

Lemma processResponse_run (text : jsstring) (w : World) (s : ServiceState) :
  processResponse text w s =
  match parse (clean text) with
  | Some v =>
      if structure_violated v then failed_response text s
      else mkRun (Normal v) s []
  | None => failed_response text s
  end.
Proof.
  unfold processResponse, try_catch, bind, JSON_parse, structure_violated.
  destruct (parse (clean text)) as [v|]; [|reflexivity].
  cbv beta iota delta [ret completion state_after events].
  destruct (negb _ || negb _ || negb _); reflexivity.
Qed.

(** Whatever [processResponse] throws is the one error of its [catch]
    block. *)
Lemma processResponse_throws (text : jsstring) (w : World) (s : ServiceState)
      (e : Thrown) :
  completion (processResponse text w s) = Throw e -> e = MalformedResponse.
Proof.
  rewrite processResponse_run.
  destruct (parse (clean text)) as [v|]; [destruct (structure_violated v)|];
    simpl; congruence.
Qed.

Lemma processResponse_returns (text : jsstring) (w : World) (s : ServiceState)
      (r : JSValue) :
  completion (processResponse text w s) = Normal r ->
  parse (clean text) = Some r /\ structure_violated r = false.
Proof.
  rewrite processResponse_run.
  destruct (parse (clean text)) as [v|]; [|discriminate].
  destruct (structure_violated v) eqn:E; [discriminate|].
  simpl. intros H. injection H as ->. now split.
Qed.

Lemma analyzeWithGemini_run (file : Blob) (w : World) (s : ServiceState) :
  analyzeWithGemini file w s =
  match ai s with
  | None => mkRun (Throw NotInitialized) s []
  | Some c =>
      match reader_answer w file with
      | Throw e => mkRun (Throw e) s [ReadAsDataURL file]
      | Normal result =>
          let params := analysisRequest file (nth_error (split (ch ",") result) 1) in
          match generate_answer w c params with
          | Throw e =>
              mkRun (Throw e) s [ReadAsDataURL file; GenerateContent c params]
          | Normal response =>
              let r := processResponse (response_text response) w s in
              mkRun (completion r) (state_after r)
                    (ReadAsDataURL file :: GenerateContent c params :: events r)
          end
      end
  end.
Proof.
  unfold analyzeWithGemini. run_monad.
  destruct (ai s) as [c|]; [|reflexivity].
  destruct (reader_answer w file) as [result|e]; [|reflexivity].
  fold prompt_text. unfold analysisRequest, prompt_text. run_monad.
  destruct (generate_answer w c _) as [response|e]; reflexivity.
Qed.

Lemma analyzeResume_run (file : Blob) (w : World) (s : ServiceState) :
  analyzeResume file w s =
  if negb (streqb (type file) PDF) then rejected UnsupportedMediaType s
  else if N.ltb MAX_SIZE (size file) then rejected PayloadTooLarge s
  else try_catch (analyzeWithGemini file) (rethrow "Resume analysis failed:") w s.
Proof.
  unfold analyzeResume, rethrow.
  destruct (negb (streqb (type file) PDF)); [reflexivity|].
  destruct (N.ltb MAX_SIZE (size file)); reflexivity.
Qed.

Lemma analyzeResumeFromUrl_run (url : jsstring) (w : World) (s : ServiceState) :
  analyzeResumeFromUrl url w s =
  match fetch_answer w url with
  | Throw e => url_rejected url e s
  | Normal response =>
      if negb (ok response) then url_rejected url (FetchFailure (status response)) s
      else
        match blob response with
        | Throw e => url_rejected url e s
        | Normal b =>
            if negb (streqb (type b) PDF) then url_rejected url NotAPdfUrl s
            else
              let r := try_catch (analyzeWithGemini b)
                                 (rethrow "URL analysis failed:") w s in
              mkRun (completion r) (state_after r) (Fetch url :: events r)
        end
  end.
Proof.
  unfold analyzeResumeFromUrl, rethrow, url_rejected, FetchFailure, NotAPdfUrl.
  unfold try_catch at 1. unfold bind at 1. unfold fetch. run_monad.
  destruct (fetch_answer w url) as [response|e]; [|reflexivity].
  destruct (negb (ok response)); [reflexivity|].
  destruct (blob response) as [b|e]; [|reflexivity].
  destruct (negb (streqb (type b) PDF)); [reflexivity|].
  destruct (analyzeWithGemini b w s) as [[a|e] st evs]; reflexivity.
Qed.

Lemma try_catch_rethrow_returns (m : M ResumeAnalysisResult) (label : string)
      (w : World) (s : ServiceState) (r : JSValue) :
  completion (try_catch m (rethrow label) w s) = Normal r ->
  completion (m w s) = Normal r.
Proof.
  unfold try_catch. destruct (m w s) as [[a|e] st evs]; simpl; congruence.
Qed.

Lemma analyzeWithGemini_returns (file : Blob) (w : World) (s : ServiceState)
      (r : JSValue) :
  completion (analyzeWithGemini file w s) = Normal r ->
  exists text, completion (processResponse text w s) = Normal r.
Proof.
  rewrite analyzeWithGemini_run.
  destruct (ai s) as [c|]; [|discriminate].
  destruct (reader_answer w file) as [result|e]; [|discriminate].
  cbv zeta.
  destruct (generate_answer w c _) as [response|e]; [|discriminate].
  simpl. intros H. now exists (response_text response).
Qed.

Lemma returned_from_processResponse (r : JSValue) :
  returned_by_service r ->
  exists text w s, completion (processResponse text w s) = Normal r.
Proof.
  intros [text w s H | file w s H | url w s H].
  - now exists text, w, s.
  - rewrite analyzeResume_run in H.
    destruct (negb (streqb (type file) PDF)); [discriminate|].
    destruct (N.ltb MAX_SIZE (size file)); [discriminate|].
    apply try_catch_rethrow_returns, analyzeWithGemini_returns in H as [text H].
    now exists text, w, s.
  - rewrite analyzeResumeFromUrl_run in H.
    destruct (fetch_answer w url) as [response|e]; [|discriminate].
    destruct (negb (ok response)); [discriminate|].
    destruct (blob response) as [b|e]; [|discriminate].
    destruct (negb (streqb (type b) PDF)); [discriminate|].
    cbv zeta in H. simpl in H.
    apply try_catch_rethrow_returns, analyzeWithGemini_returns in H as [text H].
    now exists text, w, s.
Qed.

Lemma no_network_console (label : jsstring) (arg : LogArg) :
  no_network [ConsoleError label arg].
Proof. intros e [<-|[]]. reflexivity. Qed.

Lemma no_network_no_inference (evs : list Event) :
  no_network evs -> no_inference evs.
Proof.
  intros H e He. specialize (H e He). now destruct e.
Qed.

Lemma no_inference_url_rejected (url : jsstring) (e : Thrown) (s : ServiceState) :
  no_inference (events (url_rejected url e s)).
Proof. intros ev [<-|[<-|[]]]; reflexivity. Qed.

(** ** [analyzeResume] *)

(** C1 (as the code has it). Before [initialize], [analyzeResume] fails for
    every document and nothing leaves the browser; the error is
    [NotInitialized] when the document passes the media type and size
    checks, which run first. *)
Theorem analyzeResume_before_initialize (file : Blob) (w : World) (s : ServiceState) :
  ai s = None ->
  (exists e, completion (analyzeResume file w s) = Throw e)
  /\ no_network (events (analyzeResume file w s))
  /\ state_after (analyzeResume file w s) = s
  /\ (type file = PDF -> (size file <= MAX_SIZE)%N ->
      completion (analyzeResume file w s) = Throw NotInitialized).
Proof.
  intros Hai. rewrite analyzeResume_run.
  destruct (negb (streqb (type file) PDF)) eqn:Htype.
  { repeat split.
    - now exists UnsupportedMediaType.
    - apply no_network_console.
    - intros Hpdf. rewrite Hpdf, streqb_refl in Htype. discriminate. }
  destruct (N.ltb MAX_SIZE (size file)) eqn:Hsize.
  { repeat split.
    - now exists PayloadTooLarge.
    - apply no_network_console.
    - intros _ Hle. apply N.ltb_lt in Hsize. lia. }
  unfold try_catch. rewrite analyzeWithGemini_run, Hai.
  repeat split.
  - now exists NotInitialized.
  - apply no_network_console.
Qed.

(** A small PDF, before [initialize]. *)
Lemma analyzeResume_before_initialize_witness :
  ai uninitialized = None
  /\ completion (analyzeResume small_pdf offline uninitialized) = Throw NotInitialized
  /\ no_network (events (analyzeResume small_pdf offline uninitialized)).
Proof.
  split; [reflexivity|].
  destruct (analyzeResume_before_initialize small_pdf offline uninitialized eq_refl)
    as (_ & Hnet & _ & Herr).
  split; [|exact Hnet].
  apply Herr; [reflexivity|].
  unfold small_pdf, MAX_SIZE; simpl; lia.
Defined.

(** C1 (as stated) fails: before [initialize], a text file is answered with
    [UnsupportedMediaType] and a PDF of 5 MiB with [PayloadTooLarge], not
    with [NotInitialized]. *)
Lemma analyzeResume_before_initialize_invalid_document :
  ai uninitialized = None
  /\ completion (analyzeResume text_file offline uninitialized)
     = Throw UnsupportedMediaType
  /\ completion (analyzeResume text_file offline uninitialized)
     <> Throw NotInitialized
  /\ completion (analyzeResume pdf_5MiB offline uninitialized)
     = Throw PayloadTooLarge
  /\ completion (analyzeResume pdf_5MiB offline uninitialized)
     <> Throw NotInitialized.
Proof.
  repeat split; try reflexivity; vm_compute; discriminate.
Qed.

(** C2. A document whose media type is not ["application/pdf"] is answered
    with [UnsupportedMediaType]; the only event is the log line, so no remote
    call is made. *)
Theorem analyzeResume_rejects_non_pdf (file : Blob) (w : World) (s : ServiceState) :
  type file <> PDF ->
  completion (analyzeResume file w s) = Throw UnsupportedMediaType
  /\ events (analyzeResume file w s)
     = [ConsoleError (str "Resume analysis failed:") (LogThrown UnsupportedMediaType)]
  /\ no_inference (events (analyzeResume file w s))
  /\ no_network (events (analyzeResume file w s)).
Proof.
  intros Htype. apply streqb_neq in Htype.
  rewrite analyzeResume_run, Htype. simpl negb. cbv iota.
  repeat split.
  - apply no_network_no_inference, no_network_console.
  - apply no_network_console.
Qed.

(** A text file, the service initialized. *)
Lemma analyzeResume_rejects_non_pdf_witness :
  type text_file <> PDF
  /\ completion (analyzeResume text_file offline (mkState (Some (mkClient (str "key")))))
     = Throw UnsupportedMediaType
  /\ no_inference (events (analyzeResume text_file offline
                             (mkState (Some (mkClient (str "key")))))).
Proof.
  assert (H : type text_file <> PDF) by (vm_compute; discriminate).
  split; [exact H|].
  destruct (analyzeResume_rejects_non_pdf text_file offline
              (mkState (Some (mkClient (str "key")))) H) as (Hc & _ & Hi & _).
  split; [exact Hc | exact Hi].
Defined.

(** C3. A PDF longer than 4 MiB is answered with [PayloadTooLarge] and no
    remote call; a PDF of at most 4 MiB goes on to [analyzeWithGemini]. *)
Theorem analyzeResume_size_limit (file : Blob) (w : World) (s : ServiceState) :
  type file = PDF ->
  ((MAX_SIZE < size file)%N ->
   completion (analyzeResume file w s) = Throw PayloadTooLarge
   /\ no_network (events (analyzeResume file w s)))
  /\ ((size file <= MAX_SIZE)%N ->
      analyzeResume file w s
      = try_catch (analyzeWithGemini file) (rethrow "Resume analysis failed:") w s).
Proof.
  intros Htype. rewrite analyzeResume_run, Htype, streqb_refl. simpl negb. cbv iota.
  split; intros Hsize.
  - apply N.ltb_lt in Hsize. rewrite Hsize. split; [reflexivity|].
    apply no_network_console.
  - apply N.ltb_ge in Hsize. now rewrite Hsize.
Qed.

(** A PDF of 5 MiB and one of exactly 4 MiB. *)
Lemma analyzeResume_size_limit_witness :
  MAX_SIZE = 4194304%N
  /\ completion (analyzeResume pdf_5MiB offline uninitialized) = Throw PayloadTooLarge
  /\ analyzeResume pdf_4MiB offline uninitialized
     = try_catch (analyzeWithGemini pdf_4MiB) (rethrow "Resume analysis failed:")
                 offline uninitialized.
Proof.
  split; [reflexivity|]. split.
  - apply (analyzeResume_size_limit pdf_5MiB offline uninitialized); [reflexivity|].
    unfold pdf_5MiB, MAX_SIZE; simpl; lia.
  - apply (analyzeResume_size_limit pdf_4MiB offline uninitialized); [reflexivity|].
    unfold pdf_4MiB, MAX_SIZE; simpl; lia.
Defined.

(** ** [processResponse] *)

(** C4 (what the code does). A parseable response whose [score] is not a
    number, or whose [improvements] or [strengths] is not an array, makes
    [processResponse] throw; the error is the one thrown on a parse failure,
    [MalformedResponse]: the [Error('Invalid response structure')] raised by
    the check does not leave the [try] block. *)
Theorem processResponse_structure_error_is_parse_error
        (text : jsstring) (v : JSValue) (w : World) (s : ServiceState) :
  parse (clean text) = Some v ->
  (forall n, optional_get v "score" <> Some (JNumber n))
  \/ (forall l, optional_get v "improvements" <> Some (JArray l))
  \/ (forall l, optional_get v "strengths" <> Some (JArray l)) ->
  completion (processResponse text w s) = Throw MalformedResponse
  /\ completion (processResponse text w s) <> Throw SchemaViolation
  /\ completion (processResponse text w s)
     = completion (processResponse (str "not json") w s).
Proof.
  intros Hparse Hbad. apply structure_broken in Hbad.
  rewrite !processResponse_run, Hparse, Hbad.
  repeat split. simpl. intros H. vm_compute in H. discriminate.
Qed.

(** The response whose score is the string [high]. *)
Lemma processResponse_structure_error_is_parse_error_witness :
  parse (clean score_high)
  = Some (JObject [(str "score", JString (str "high"));
                   (str "improvements", JArray []);
                   (str "strengths", JArray [])])
  /\ completion (processResponse score_high offline uninitialized)
     = Throw MalformedResponse
  /\ completion (processResponse score_high offline uninitialized)
     <> Throw SchemaViolation.
Proof.
  assert (Hp : parse (clean score_high)
               = Some (JObject [(str "score", JString (str "high"));
                                (str "improvements", JArray []);
                                (str "strengths", JArray [])]))
    by (vm_compute; reflexivity).
  split; [exact Hp|].
  destruct (processResponse_structure_error_is_parse_error
              score_high offline uninitialized Hp) as (H1 & H2 & _).
  - left. intros n H. vm_compute in H. discriminate.
  - split; [exact H1 | exact H2].
Defined.

(** C5. A response that is not JSON once the fences are stripped makes
    [processResponse] throw [MalformedResponse]; the text is logged and never
    returned. *)
Theorem processResponse_malformed (text : jsstring) (w : World) (s : ServiceState) :
  parse (clean text) = None ->
  processResponse text w s = failed_response text s
  /\ completion (processResponse text w s) = Throw MalformedResponse
  /\ (forall r, completion (processResponse text w s) <> Normal r).
Proof.
  intros Hparse. rewrite processResponse_run, Hparse.
  repeat split. discriminate.
Qed.

(** The response [not json]. *)
Lemma processResponse_malformed_witness :
  parse (clean (str "not json")) = None
  /\ completion (processResponse (str "not json") offline uninitialized)
     = Throw MalformedResponse.
Proof.
  assert (Hp : parse (clean (str "not json")) = None) by (vm_compute; reflexivity).
  split; [exact Hp|].
  apply (processResponse_malformed (str "not json") offline uninitialized Hp).
Defined.

(** C6. The fenced response of the specification: the fences and the line
    breaks around the object are stripped, and the parsed object is returned
    as it is, with no event. *)
Theorem processResponse_fenced_example (w : World) (s : ServiceState) :
  clean fenced_82
  = json "{'score':82,'improvements':[{'category':'Metrics','suggestion':'Quantify impact'}],'strengths':['Clear formatting']}"
  /\ processResponse fenced_82 w s = mkRun (Normal result_82) s [].
Proof.
  split; [vm_compute; reflexivity|].
  rewrite processResponse_run.
  replace (parse (clean fenced_82)) with (Some result_82)
    by (vm_compute; reflexivity).
  reflexivity.
Qed.

(** C7 (as the code has it). Every result the service returns, from
    [processResponse] and so from both entry points, has a [score] that is a
    number and [improvements] and [strengths] that are arrays, possibly
    empty.  The value of the score is not looked at. *)
Theorem returned_result_structure (r : JSValue) :
  returned_by_service r -> checked_structure r.
Proof.
  intros H. destruct (returned_from_processResponse H) as (text & w & s & Hr).
  apply processResponse_returns in Hr as [_ Hr].
  now apply structure_kept.
Qed.

(** The result of the fenced response. *)
Lemma returned_result_structure_witness :
  returned_by_service result_82 /\ checked_structure result_82.
Proof.
  assert (H : returned_by_service result_82).
  { apply by_processResponse with (text := fenced_82) (w := offline) (s := uninitialized).
    vm_compute. reflexivity. }
  split; [exact H|].
  exact (returned_result_structure H).
Defined.

(** C7 (as stated) fails: a response with score 150 is returned as it is,
    by [processResponse] and by [analyzeResume], and 150 is not within
    0..100. *)
Lemma returned_score_out_of_range :
  completion (processResponse score_150 offline uninitialized) = Normal result_150
  /\ completion (analyzeResume small_pdf online initialized) = Normal result_150
  /\ returned_by_service result_150
  /\ ~ AnalysisResult_invariant result_150.
Proof.
  assert (H : completion (processResponse score_150 offline uninitialized)
              = Normal result_150) by (vm_compute; reflexivity).
  split; [exact H|]. split; [vm_compute; reflexivity|].
  split; [exact (by_processResponse _ _ _ H)|].
  intros (n & li & ls & Hn & _ & Hle & _).
  vm_compute in Hn. injection Hn as <-.
  vm_compute in Hle. apply Hle. reflexivity.
Qed.

(** ** [getAnalysisPrompt] *)

(** C8. [getAnalysisPrompt] returns the same text whatever the state of
    the service and the answers of the collaborators, causes no event and
    leaves the state as it was. *)
Theorem getAnalysisPrompt_deterministic (w1 w2 : World) (s1 s2 : ServiceState) :
  completion (getAnalysisPrompt w1 s1) = completion (getAnalysisPrompt w2 s2)
  /\ completion (getAnalysisPrompt w1 s1) = Normal prompt_text
  /\ events (getAnalysisPrompt w1 s1) = []
  /\ state_after (getAnalysisPrompt w1 s1) = s1.
Proof. repeat split. Qed.

(** ** [analyzeResumeFromUrl] *)

(** C9. When the fetch completes with a status that is not a success,
    [analyzeResumeFromUrl] throws [FetchFailure] with that status; when the
    fetched content is not declared ["application/pdf"], it throws too; in
    both cases the inference service is not called. *)
Theorem analyzeResumeFromUrl_fails_before_inference
        (url : jsstring) (w : World) (s : ServiceState) (response : Response) :
  fetch_answer w url = Normal response ->
  (ok response = false ->
   completion (analyzeResumeFromUrl url w s) = Throw (FetchFailure (status response))
   /\ no_inference (events (analyzeResumeFromUrl url w s)))
  /\ (forall b, ok response = true -> blob response = Normal b -> type b <> PDF ->
      completion (analyzeResumeFromUrl url w s) = Throw NotAPdfUrl
      /\ no_inference (events (analyzeResumeFromUrl url w s))).
Proof.
  intros Hfetch. rewrite analyzeResumeFromUrl_run, Hfetch. split.
  - intros ->. simpl negb. cbv iota. split; [reflexivity|].
    apply no_inference_url_rejected.
  - intros b -> -> Htype. apply streqb_neq in Htype. rewrite Htype.
    simpl negb. cbv iota. split; [reflexivity|].
    apply no_inference_url_rejected.
Qed.

(** A fetch that ends with status 404, and one that gives a text document. *)
Lemma analyzeResumeFromUrl_fails_before_inference_witness :
  completion (analyzeResumeFromUrl resume_url not_found initialized)
  = Throw (Error (str "Failed to fetch PDF: 404"))
  /\ no_inference (events (analyzeResumeFromUrl resume_url not_found initialized))
  /\ completion (analyzeResumeFromUrl resume_url serves_text initialized)
     = Throw NotAPdfUrl
  /\ no_inference (events (analyzeResumeFromUrl resume_url serves_text initialized)).
Proof.
  destruct (analyzeResumeFromUrl_fails_before_inference
              resume_url not_found initialized eq_refl) as [H404 _].
  destruct (analyzeResumeFromUrl_fails_before_inference
              resume_url serves_text initialized eq_refl) as [_ Htext].
  destruct (H404 eq_refl) as [H1 H2].
  destruct (Htext text_file eq_refl eq_refl) as [H3 H4].
  - vm_compute. discriminate.
  - repeat split; assumption.
Defined.

(** C10. For a fetched blob declared ["application/pdf"],
    [analyzeResumeFromUrl] goes on to [analyzeWithGemini] whatever the size
    of the blob: once the service is initialized and the blob is read, the
    inference request is sent, and [PayloadTooLarge] is thrown only if the
    inference service itself answers with it. *)
Theorem analyzeResumeFromUrl_no_size_limit
        (url : jsstring) (w : World) (s : ServiceState) (response : Response)
        (b : Blob) (c : GoogleGenAI) (result : jsstring) :
  fetch_answer w url = Normal response ->
  ok response = true ->
  blob response = Normal b ->
  type b = PDF ->
  ai s = Some c ->
  reader_answer w b = Normal result ->
  let params := analysisRequest b (nth_error (split (ch ",") result) 1) in
  In (GenerateContent c params) (events (analyzeResumeFromUrl url w s))
  /\ (completion (analyzeResumeFromUrl url w s) = Throw PayloadTooLarge ->
      generate_answer w c params = Throw PayloadTooLarge).
Proof.
  intros Hfetch Hok Hblob Htype Hai Hread params.
  rewrite analyzeResumeFromUrl_run, Hfetch, Hok, Hblob, Htype, streqb_refl.
  simpl negb. cbv iota zeta. unfold try_catch.
  rewrite analyzeWithGemini_run, Hai, Hread. cbv zeta. fold params.
  destruct (generate_answer w c params) as [answer|e] eqn:Hgen.
  - simpl completion.
    destruct (completion (processResponse (response_text answer) w s)) as [r|e] eqn:Hr.
    + split; [simpl; tauto | discriminate].
    + apply processResponse_throws in Hr. subst e.
      split; [simpl; tauto|].
      simpl. intros H. vm_compute in H. discriminate.
  - split; [simpl; tauto|].
    simpl. congruence.
Qed.

(** A fetched PDF of 5 MiB reaches the inference service. *)
Lemma analyzeResumeFromUrl_no_size_limit_witness :
  (MAX_SIZE < size pdf_5MiB)%N
  /\ In (GenerateContent test_client
           (analysisRequest pdf_5MiB (Some (str "JVBERi0xLjQK"))))
        (events (analyzeResumeFromUrl resume_url online initialized)).
Proof.
  split; [reflexivity|].
  apply (analyzeResumeFromUrl_no_size_limit
           resume_url online initialized
           (response := mkResponse true 200 (Normal pdf_5MiB))
           (b := pdf_5MiB) (c := test_client) (result := data_url));
    reflexivity.
Defined.

(** ** One request for one analysis *)

Lemma inference_calls_processResponse (text : jsstring) (w : World) (s : ServiceState) :
  inference_calls (events (processResponse text w s)) = [].
Proof.
  rewrite processResponse_run.
  destruct (parse (clean text)) as [v|]; [destruct (structure_violated v)|];
    reflexivity.
Qed.

(** X1. A PDF of at most 4 MiB, handed to an initialized service and read
    without error, causes exactly one call of the inference service: the
    request with the fixed prompt, the media type of the file, the base64
    part of its data URL, and the schema of the answer. *)
Theorem analyzeResume_one_request
        (file : Blob) (w : World) (s : ServiceState) (c : GoogleGenAI)
        (result : jsstring) :
  type file = PDF ->
  (size file <= MAX_SIZE)%N ->
  ai s = Some c ->
  reader_answer w file = Normal result ->
  inference_calls (events (analyzeResume file w s))
  = [GenerateContent c (analysisRequest file (nth_error (split (ch ",") result) 1))].
Proof.
  intros Htype Hsize Hai Hread.
  rewrite analyzeResume_run, Htype, streqb_refl.
  apply N.ltb_ge in Hsize. rewrite Hsize. simpl negb. cbv iota.
  unfold try_catch. rewrite analyzeWithGemini_run, Hai, Hread. cbv zeta.
  destruct (generate_answer w c _) as [answer|e]; [|reflexivity].
  pose proof (inference_calls_processResponse (response_text answer) w s) as Hp.
  cbn [completion state_after events].
  destruct (completion (processResponse (response_text answer) w s)) as [r|e].
  - unfold inference_calls in *. cbn [filter is_inference events].
    f_equal. exact Hp.
  - unfold inference_calls in *. cbn [events].
    change (?a :: ?b :: ?l ++ ?m) with ([a; b] ++ l ++ m).
    rewrite !filter_app. cbn [filter is_inference app]. f_equal.
    rewrite app_nil_r. exact Hp.
Qed.

(** After [initialize], a small PDF in a world that answers. *)
Lemma analyzeResume_one_request_witness :
  inference_calls
    (events (analyzeResume small_pdf online
               (state_after (initialize (str "key") online uninitialized))))
  = [GenerateContent test_client
       (analysisRequest small_pdf (Some (str "JVBERi0xLjQK")))].
Proof.
  apply (analyzeResume_one_request small_pdf online
           (state_after (initialize (str "key") online uninitialized))
           (c := test_client) (result := data_url));
    try reflexivity.
  unfold small_pdf, MAX_SIZE; simpl; lia.
Defined.

(** ** Further properties of the service *)

Lemma structure_checked (r : JSValue) :
  checked_structure r -> structure_violated r = false.
Proof.
  intros (n & li & ls & Hn & Hi & Hs).
  unfold structure_violated. rewrite Hn, Hi, Hs. reflexivity.
Qed.

Lemma try_catch_rethrow_run (m : M ResumeAnalysisResult) (label : string)
      (w : World) (s : ServiceState) :
  try_catch m (rethrow label) w s
  = mkRun (completion (m w s)) (state_after (m w s))
          (events (m w s)
           ++ match completion (m w s) with
              | Normal _ => []
              | Throw e => [ConsoleError (str label) (LogThrown e)]
              end).
Proof.
  unfold try_catch, rethrow.
  destruct (m w s) as [[a|e] st evs]; simpl; rewrite ?app_nil_r; reflexivity.
Qed.

Lemma processResponse_events (text : jsstring) (w : World) (s : ServiceState) :
  events (processResponse text w s) = []
  \/ events (processResponse text w s)
     = [ConsoleError (str "Failed to process response:") (LogText text)].
Proof.
  rewrite processResponse_run.
  destruct (parse (clean text)) as [v|]; [destruct (structure_violated v)|];
    simpl; auto.
Qed.

Lemma processResponse_state (text : jsstring) (w : World) (s : ServiceState) :
  state_after (processResponse text w s) = s.
Proof.
  rewrite processResponse_run.
  destruct (parse (clean text)) as [v|]; [destruct (structure_violated v)|];
    reflexivity.
Qed.

Lemma analyzeWithGemini_state (file : Blob) (w : World) (s : ServiceState) :
  state_after (analyzeWithGemini file w s) = s.
Proof.
  rewrite analyzeWithGemini_run.
  destruct (ai s) as [c|]; [|reflexivity].
  destruct (reader_answer w file) as [result|e]; [|reflexivity].
  cbv zeta. destruct (generate_answer w c _) as [answer|e]; [|reflexivity].
  apply processResponse_state.
Qed.

Lemma analyzeWithGemini_calls (file : Blob) (w : World) (s : ServiceState) :
  inference_calls (events (analyzeWithGemini file w s))
  = match ai s, reader_answer w file with
    | Some c, Normal result =>
        [GenerateContent c (analysisRequest file (nth_error (split (ch ",") result) 1))]
    | _, _ => []
    end.
Proof.
  rewrite analyzeWithGemini_run.
  destruct (ai s) as [c|]; [|reflexivity].
  destruct (reader_answer w file) as [result|e]; [|reflexivity].
  cbv zeta. destruct (generate_answer w c _) as [answer|e]; [|reflexivity].
  unfold inference_calls. cbn [events filter is_inference]. f_equal.
  apply inference_calls_processResponse.
Qed.

Lemma analyzeWithGemini_console (file : Blob) (w : World) (s : ServiceState)
      (label : jsstring) (arg : LogArg) :
  In (ConsoleError label arg) (events (analyzeWithGemini file w s)) ->
  label = str "Failed to process response:".
Proof.
  rewrite analyzeWithGemini_run.
  destruct (ai s) as [c|]; [|intros []].
  destruct (reader_answer w file) as [result|e].
  2:{ intros [H|[]]. discriminate. }
  cbv zeta. destruct (generate_answer w c _) as [answer|e].
  2:{ intros [H|[H|[]]]; discriminate. }
  cbn [events]. intros [H|[H|H]]; try discriminate.
  destruct (processResponse_events (response_text answer) w s) as [E|E];
    rewrite E in H.
  - destruct H.
  - destruct H as [H|[]]. congruence.
Qed.

Lemma inference_calls_rethrow (m : M ResumeAnalysisResult) (label : string)
      (w : World) (s : ServiceState) :
  inference_calls (events (try_catch m (rethrow label) w s))
  = inference_calls (events (m w s)).
Proof.
  rewrite try_catch_rethrow_run. cbn [events]. unfold inference_calls.
  rewrite filter_app.
  destruct (completion (m w s)); simpl; apply app_nil_r.
Qed.

Lemma analyzeResume_calls (file : Blob) (w : World) (s : ServiceState) :
  inference_calls (events (analyzeResume file w s))
  = if negb (streqb (type file) PDF) then []
    else if N.ltb MAX_SIZE (size file) then []
    else inference_calls (events (analyzeWithGemini file w s)).
Proof.
  rewrite analyzeResume_run.
  destruct (negb (streqb (type file) PDF)); [reflexivity|].
  destruct (N.ltb MAX_SIZE (size file)); [reflexivity|].
  apply inference_calls_rethrow.
Qed.

Lemma analyzeResumeFromUrl_calls (url : jsstring) (w : World) (s : ServiceState) :
  inference_calls (events (analyzeResumeFromUrl url w s))
  = match fetch_answer w url with
    | Normal response =>
        if negb (ok response) then []
        else match blob response with
             | Normal b =>
                 if negb (streqb (type b) PDF) then []
                 else inference_calls (events (analyzeWithGemini b w s))
             | Throw _ => []
             end
    | Throw _ => []
    end.
Proof.
  rewrite analyzeResumeFromUrl_run.
  destruct (fetch_answer w url) as [response|e]; [|reflexivity].
  destruct (negb (ok response)); [reflexivity|].
  destruct (blob response) as [b|e]; [|reflexivity].
  destruct (negb (streqb (type b) PDF)); [reflexivity|].
  cbv zeta. cbn [events]. unfold inference_calls at 1. cbn [filter is_inference].
  apply inference_calls_rethrow.
Qed.

(** X2. [processResponse] returns [r] exactly when the cleaned text parses
    to [r], the score of [r] is a number and its two lists are arrays;
    nothing else about [r] is looked at. *)
Theorem processResponse_success_iff
        (text : jsstring) (w : World) (s : ServiceState) (r : JSValue) :
  completion (processResponse text w s) = Normal r
  <-> parse (clean text) = Some r /\ checked_structure r.
Proof.
  split.
  - intros H. apply processResponse_returns in H as [Hp Hs].
    split; [exact Hp | now apply structure_kept].
  - intros [Hp Hs]. apply structure_checked in Hs.
    now rewrite processResponse_run, Hp, Hs.
Qed.

(** X3. An error thrown by [analyzeResume] is the last thing it logs, under
    its own label; what was logged before carries another label. *)
Theorem analyzeResume_failure_logged
        (file : Blob) (w : World) (s : ServiceState) (e : Thrown) :
  completion (analyzeResume file w s) = Throw e ->
  exists before,
    events (analyzeResume file w s)
    = before ++ [ConsoleError (str "Resume analysis failed:") (LogThrown e)]
    /\ (forall label arg, In (ConsoleError label arg) before ->
        label <> str "Resume analysis failed:").
Proof.
  rewrite analyzeResume_run.
  destruct (negb (streqb (type file) PDF)).
  { intros H. injection H as <-. exists []. split; [reflexivity|]. intros ? ? []. }
  destruct (N.ltb MAX_SIZE (size file)).
  { intros H. injection H as <-. exists []. split; [reflexivity|]. intros ? ? []. }
  rewrite try_catch_rethrow_run. cbn [completion events]. intros H.
  exists (events (analyzeWithGemini file w s)). rewrite H. split; [reflexivity|].
  intros label arg Hin. apply analyzeWithGemini_console in Hin. subst label.
  intros E. vm_compute in E. discriminate.
Qed.

(** The inference service rejects: the error is logged last. *)
Lemma analyzeResume_failure_logged_witness :
  completion (analyzeResume small_pdf quota_exceeded initialized)
  = Throw (Rejection (str "ApiError: 429"))
  /\ exists before,
      events (analyzeResume small_pdf quota_exceeded initialized)
      = before ++ [ConsoleError (str "Resume analysis failed:")
                                (LogThrown (Rejection (str "ApiError: 429")))]
      /\ (forall label arg, In (ConsoleError label arg) before ->
          label <> str "Resume analysis failed:").
Proof.
  assert (H : completion (analyzeResume small_pdf quota_exceeded initialized)
              = Throw (Rejection (str "ApiError: 429")))
    by (vm_compute; reflexivity).
  split; [exact H|].
  exact (analyzeResume_failure_logged small_pdf quota_exceeded initialized H).
Defined.

(** X4. For a PDF within the limit and an initialized service: when the
    read fails, [analyzeResume] throws the reader's error and the inference
    service is not called; when the inference service rejects, it throws
    that error after the one request.  Nothing is wrapped or tried again. *)
Theorem analyzeResume_collaborator_error
        (file : Blob) (w : World) (s : ServiceState) (c : GoogleGenAI)
        (e : Thrown) :
  type file = PDF ->
  (size file <= MAX_SIZE)%N ->
  ai s = Some c ->
  (reader_answer w file = Throw e ->
   analyzeResume file w s
   = mkRun (Throw e) s
       [ReadAsDataURL file;
        ConsoleError (str "Resume analysis failed:") (LogThrown e)])
  /\ (forall result,
      reader_answer w file = Normal result ->
      generate_answer w c
        (analysisRequest file (nth_error (split (ch ",") result) 1)) = Throw e ->
      analyzeResume file w s
      = mkRun (Throw e) s
          [ReadAsDataURL file;
           GenerateContent c
             (analysisRequest file (nth_error (split (ch ",") result) 1));
           ConsoleError (str "Resume analysis failed:") (LogThrown e)]).
Proof.
  intros Htype Hsize Hai.
  rewrite analyzeResume_run, Htype, streqb_refl.
  apply N.ltb_ge in Hsize. rewrite Hsize. simpl negb. cbv iota.
  rewrite try_catch_rethrow_run, analyzeWithGemini_run, Hai.
  split.
  - intros ->. reflexivity.
  - intros result -> Hgen. cbv zeta. rewrite Hgen. reflexivity.
Qed.

(** A reader that fails, and an inference service that rejects. *)
Lemma analyzeResume_collaborator_error_witness :
  completion (analyzeResume small_pdf offline initialized)
  = Throw (Rejection (str "ProgressEvent"))
  /\ inference_calls (events (analyzeResume small_pdf offline initialized)) = []
  /\ completion (analyzeResume small_pdf quota_exceeded initialized)
     = Throw (Rejection (str "ApiError: 429")).
Proof.
  assert (Hsize : (size small_pdf <= MAX_SIZE)%N)
    by (unfold small_pdf, MAX_SIZE; simpl; lia).
  destruct (analyzeResume_collaborator_error small_pdf offline initialized
              (c := test_client) (Rejection (str "ProgressEvent"))
              eq_refl Hsize eq_refl) as [Hread _].
  destruct (analyzeResume_collaborator_error small_pdf quota_exceeded initialized
              (c := test_client) (Rejection (str "ApiError: 429"))
              eq_refl Hsize eq_refl) as [_ Hgen].
  rewrite (Hread eq_refl), (Hgen data_url eq_refl eq_refl).
  repeat split.
Defined.

(** X5. No entry point calls the inference service more than once, whatever
    the document and whatever the collaborators answer; the URL entry point
    fetches exactly once. *)
Theorem at_most_one_inference_call (w : World) (s : ServiceState) :
  (forall file,
      List.length (inference_calls (events (analyzeResume file w s))) <= 1)%nat
  /\ (forall url,
      (List.length (inference_calls (events (analyzeResumeFromUrl url w s))) <= 1)%nat
      /\ fetch_calls (events (analyzeResumeFromUrl url w s)) = [Fetch url]).
Proof.
  assert (Hg : forall file,
             (List.length (inference_calls (events (analyzeWithGemini file w s))) <= 1)%nat).
  { intros file. rewrite analyzeWithGemini_calls.
    destruct (ai s); [destruct (reader_answer w file)|]; simpl; lia. }
  split.
  - intros file. rewrite analyzeResume_calls.
    destruct (negb _); [simpl; lia|]. destruct (N.ltb _ _); [simpl; lia|]. apply Hg.
  - intros url. split.
    + rewrite analyzeResumeFromUrl_calls.
      destruct (fetch_answer w url) as [response|e]; [|simpl; lia].
      destruct (negb (ok response)); [simpl; lia|].
      destruct (blob response) as [b|e]; [|simpl; lia].
      destruct (negb _); [simpl; lia|]. apply Hg.
    + rewrite analyzeResumeFromUrl_run.
      destruct (fetch_answer w url) as [response|e]; [|reflexivity].
      destruct (negb (ok response)); [reflexivity|].
      destruct (blob response) as [b|e]; [|reflexivity].
      destruct (negb _); [reflexivity|].
      cbv zeta. cbn [events]. unfold fetch_calls. cbn [filter is_fetch]. f_equal.
      rewrite try_catch_rethrow_run, analyzeWithGemini_run. cbn [events].
      rewrite filter_app.
      assert (Hlog : forall c : Completion ResumeAnalysisResult,
                 filter is_fetch
                   match c with
                   | Normal _ => []
                   | Throw e => [ConsoleError (str "URL analysis failed:") (LogThrown e)]
                   end = []) by (intros [|]; reflexivity).
      rewrite Hlog, app_nil_r.
      destruct (ai s) as [c|]; [|reflexivity].
      destruct (reader_answer w b) as [result|e]; [|reflexivity].
      cbv zeta. destruct (generate_answer w c _) as [answer|e]; [|reflexivity].
      cbn [events filter is_fetch].
      destruct (processResponse_events (response_text answer) w s) as [E|E];
        rewrite E; reflexivity.
Qed.







Lemma analyzeResume_state (file : Blob) (w : World) (s : ServiceState) :
  state_after (analyzeResume file w s) = s.
Proof.
  rewrite analyzeResume_run.
  destruct (negb _); [reflexivity|]. destruct (N.ltb _ _); [reflexivity|].
  rewrite try_catch_rethrow_run. apply analyzeWithGemini_state.
Qed.

(** X8. Neither entry point changes the initialization of the service:
    the client set by [initialize] is still there after any analysis, failed
    or not. *)
Theorem analysis_keeps_initialization (w : World) (s : ServiceState) :
  (forall file, state_after (analyzeResume file w s) = s)
  /\ (forall url, state_after (analyzeResumeFromUrl url w s) = s).
Proof.
  split.
  - intros file. apply analyzeResume_state.
  - intros url. rewrite analyzeResumeFromUrl_run.
    destruct (fetch_answer w url) as [response|e]; [|reflexivity].
    destruct (negb (ok response)); [reflexivity|].
    destruct (blob response) as [b|e]; [|reflexivity].
    destruct (negb _); [reflexivity|].
    cbv zeta. cbn [state_after].
    rewrite try_catch_rethrow_run. apply analyzeWithGemini_state.
Qed.

(** X9. [initialize] replaces the client: after two calls, whatever the
    state before and whatever the keys (an empty one too), an analysis is
    made with the client of the second key, and that client stays. *)
Theorem initialize_last_key_wins
        (key1 key2 : jsstring) (file : Blob) (w : World) (s : ServiceState)
        (result : jsstring) :
  type file = PDF ->
  (size file <= MAX_SIZE)%N ->
  reader_answer w file = Normal result ->
  inference_calls (events (reinitialize_then_analyze key1 key2 file w s))
  = [GenerateContent (mkClient key2)
       (analysisRequest file (nth_error (split (ch ",") result) 1))]
  /\ ai (state_after (reinitialize_then_analyze key1 key2 file w s))
     = Some (mkClient key2).
Proof.
  intros Htype Hsize Hread.
  unfold reinitialize_then_analyze, bind, initialize, set_ai.
  cbn [completion state_after events app].
  set (s2 := mkState (Some (mkClient key2))).
  assert (Hst : state_after (analyzeResume file w s2) = s2)
    by apply analyzeResume_state.
  split.
  - destruct (analyzeResume file w s2) as [comp st evs] eqn:Hrun.
    assert (Hev : evs = events (analyzeResume file w s2)) by now rewrite Hrun.
    destruct comp; cbn [events]; rewrite Hev, analyzeResume_calls, Htype, streqb_refl;
      apply N.ltb_ge in Hsize; rewrite Hsize; simpl negb; cbv iota;
      rewrite analyzeWithGemini_calls, Hread; reflexivity.
  - destruct (analyzeResume file w s2) as [comp st evs] eqn:Hrun.
    cbn [state_after] in Hst. subst st. destruct comp; reflexivity.
Qed.

(** Initialized with a key, then with the empty key. *)
Lemma initialize_last_key_wins_witness :
  inference_calls
    (events (reinitialize_then_analyze (str "old") [] small_pdf online uninitialized))
  = [GenerateContent (mkClient [])
       (analysisRequest small_pdf (Some (str "JVBERi0xLjQK")))]
  /\ ai (state_after
           (reinitialize_then_analyze (str "old") [] small_pdf online uninitialized))
     = Some (mkClient []).
Proof.
  apply (initialize_last_key_wins (str "old") [] small_pdf online uninitialized
           (result := data_url)); try reflexivity.
  unfold small_pdf, MAX_SIZE; simpl; lia.
Defined.

(** X10. When [fetch] itself rejects, or reading the body of a successful
    response does, [analyzeResumeFromUrl] throws that very error (it is not
    turned into the error of a failed status), logs it, and does not read
    or send anything. *)
Theorem analyzeResumeFromUrl_transport_error
        (url : jsstring) (w : World) (s : ServiceState) (e : Thrown) :
  fetch_answer w url = Throw e
  \/ (exists response,
        fetch_answer w url = Normal response
        /\ ok response = true
        /\ blob response = Throw e) ->
  analyzeResumeFromUrl url w s
  = mkRun (Throw e) s
      [Fetch url; ConsoleError (str "URL analysis failed:") (LogThrown e)].
Proof.
  rewrite analyzeResumeFromUrl_run.
  intros [H | (response & H & Hok & Hblob)]; rewrite H; [reflexivity|].
  rewrite Hok, Hblob. reflexivity.
Qed.

(** The network is down. *)
Lemma analyzeResumeFromUrl_transport_error_witness :
  analyzeResumeFromUrl resume_url offline initialized
  = mkRun (Throw (Rejection (str "TypeError: Failed to fetch"))) initialized
      [Fetch resume_url;
       ConsoleError (str "URL analysis failed:")
                    (LogThrown (Rejection (str "TypeError: Failed to fetch")))].
Proof.
  apply (analyzeResumeFromUrl_transport_error resume_url offline initialized).
  left. reflexivity.
Defined.

(** ** Cleaning the response *)

Lemma free_of_cons (c x : N) (s : jsstring) :
  free_of c (x :: s) -> x <> c /\ free_of c s.
Proof.
  intros H. split; [apply H; now left|]. intros y Hy. apply H. now right.
Qed.

Lemma free_of_app (c : N) (a b : jsstring) :
  free_of c a -> free_of c b -> free_of c (a ++ b).
Proof.
  intros Ha Hb x Hx. apply in_app_or in Hx as [Hx|Hx]; auto.
Qed.

Lemma remove_from_skipn (pat : jsstring) (s : jsstring) :
  forall k, remove_from pat k s = remove_all pat (skipn k s).
Proof.
  induction s as [|c r IH]; intros [|k]; try reflexivity.
  cbn [remove_from skipn]. apply IH.
Qed.

Lemma remove_all_cons (pat : jsstring) (c : N) (r : jsstring) :
  remove_all pat (c :: r)
  = if starts_with pat (c :: r)
    then remove_all pat (skipn (List.length pat - 1) r)
    else c :: remove_all pat r.
Proof.
  unfold remove_all at 1. cbn [remove_from].
  destruct (starts_with pat (c :: r)); [apply remove_from_skipn | reflexivity].
Qed.

Lemma starts_with_app (pat b : jsstring) : starts_with pat (pat ++ b) = true.
Proof.
  induction pat as [|p pat IH]; [reflexivity|].
  cbn [starts_with app]. now rewrite N.eqb_refl, IH.
Qed.

Lemma starts_with_cons (p c : N) (pat s : jsstring) :
  starts_with (p :: pat) (c :: s) = N.eqb p c && starts_with pat s.
Proof. reflexivity. Qed.

Lemma starts_with_other (p0 x : N) (pat' s : jsstring) :
  x <> p0 -> starts_with (p0 :: pat') (x :: s) = false.
Proof.
  intros H. cbn [starts_with].
  destruct (N.eqb_spec p0 x) as [E|E]; [congruence | reflexivity].
Qed.

(** A stretch free of the first code unit of the pattern is kept. *)
Lemma remove_all_keep (p0 : N) (pat' a t : jsstring) :
  free_of p0 a ->
  remove_all (p0 :: pat') (a ++ t) = a ++ remove_all (p0 :: pat') t.
Proof.
  induction a as [|x a IH]; intros Ha; [reflexivity|].
  apply free_of_cons in Ha as [Hx Ha].
  cbn [app]. rewrite remove_all_cons, starts_with_other by assumption.
  now rewrite IH.
Qed.

Lemma remove_all_free (p0 : N) (pat' a : jsstring) :
  free_of p0 a -> remove_all (p0 :: pat') a = a.
Proof.
  intros Ha. rewrite <- (app_nil_r a) at 1.
  rewrite remove_all_keep by assumption. cbn. apply app_nil_r.
Qed.

(** A match is dropped. *)
Lemma remove_all_match (p0 : N) (pat' t : jsstring) :
  remove_all (p0 :: pat') ((p0 :: pat') ++ t) = remove_all (p0 :: pat') t.
Proof.
  change ((p0 :: pat') ++ t) with (p0 :: (pat' ++ t)).
  rewrite remove_all_cons.
  change (p0 :: pat' ++ t) with ((p0 :: pat') ++ t).
  rewrite starts_with_app.
  replace (List.length (p0 :: pat') - 1)%nat with (List.length pat')
    by (cbn [List.length]; lia).
  now rewrite skipn_app, skipn_all, Nat.sub_diag.
Qed.

Lemma fence_json_keeps_fence (c : jsstring) :
  free_of BACKTICK c ->
  starts_with (str "json") c = false ->
  remove_all FENCE_JSON (FENCE ++ c) = FENCE ++ c.
Proof.
  intros Hc Hjson.
  assert (Hhead : forall pat', starts_with (BACKTICK :: pat') c = false).
  { intros pat'. destruct c as [|x c']; [reflexivity|].
    apply free_of_cons in Hc as [Hx _]. now apply starts_with_other. }
  change (FENCE ++ c) with (BACKTICK :: BACKTICK :: BACKTICK :: c).
  change FENCE_JSON with (BACKTICK :: BACKTICK :: BACKTICK :: str "json").
  rewrite remove_all_cons, !starts_with_cons, !N.eqb_refl, Hjson. cbn [andb].
  rewrite remove_all_cons, !starts_with_cons, !N.eqb_refl. cbn [andb].
  rewrite (Hhead (str "json")).
  rewrite remove_all_cons, !starts_with_cons, !N.eqb_refl. cbn [andb].
  rewrite (Hhead (BACKTICK :: str "json")).
  now rewrite remove_all_free.
Qed.

Lemma clean_fenced (a b c : jsstring) :
  free_of BACKTICK a -> free_of BACKTICK b -> free_of BACKTICK c ->
  starts_with (str "json") c = false ->
  clean (a ++ FENCE_JSON ++ b ++ FENCE ++ c) = trim (a ++ b ++ c).
Proof.
  intros Ha Hb Hc Hjson. unfold clean. f_equal.
  change FENCE_JSON with (BACKTICK :: BACKTICK :: BACKTICK :: str "json") at 1 2.
  rewrite remove_all_keep, remove_all_match, remove_all_keep by assumption.
  change (BACKTICK :: BACKTICK :: BACKTICK :: str "json") with FENCE_JSON.
  rewrite fence_json_keeps_fence by assumption.
  rewrite !app_assoc. rewrite <- (app_assoc (a ++ b)).
  change FENCE with (BACKTICK :: [BACKTICK; BACKTICK]).
  rewrite (remove_all_keep [BACKTICK; BACKTICK]
             ((BACKTICK :: [BACKTICK; BACKTICK]) ++ c) (free_of_app Ha Hb)).
  rewrite remove_all_match, remove_all_free by assumption.
  reflexivity.
Qed.

Lemma clean_unfenced (a : jsstring) :
  free_of BACKTICK a -> clean a = trim a.
Proof.
  intros Ha. unfold clean. f_equal.
  change FENCE_JSON with (BACKTICK :: BACKTICK :: BACKTICK :: str "json").
  change FENCE with (BACKTICK :: [BACKTICK; BACKTICK]).
  rewrite (remove_all_free (BACKTICK :: BACKTICK :: str "json") Ha).
  now rewrite (remove_all_free [BACKTICK; BACKTICK] Ha).
Qed.

(** X11. A [```json] marker and a later [```] marker are dropped wherever
    they stand, before, after or inside the JSON text: the response is
    answered as the same text without the two markers is. *)
Theorem processResponse_fences_dropped
        (a b c : jsstring) (w : World) (s : ServiceState) :
  free_of BACKTICK a -> free_of BACKTICK b -> free_of BACKTICK c ->
  starts_with (str "json") c = false ->
  clean (a ++ FENCE_JSON ++ b ++ FENCE ++ c) = trim (a ++ b ++ c)
  /\ completion (processResponse (a ++ FENCE_JSON ++ b ++ FENCE ++ c) w s)
     = completion (processResponse (a ++ b ++ c) w s).
Proof.
  intros Ha Hb Hc Hjson.
  pose proof (clean_fenced Ha Hb Hc Hjson) as Hclean.
  split; [exact Hclean|].
  rewrite !processResponse_run, Hclean.
  rewrite clean_unfenced by (repeat apply free_of_app; assumption).
  destruct (parse (trim (a ++ b ++ c))) as [v|]; [|reflexivity].
  destruct (structure_violated v); reflexivity.
Qed.

Lemma free_of_check (c : N) (s : jsstring) :
  forallb (fun x => negb (N.eqb x c)) s = true -> free_of c s.
Proof.
  intros H x Hx E. rewrite forallb_forall in H. specialize (H x Hx).
  subst x. now rewrite N.eqb_refl in H.
Qed.

(** Markers inside a string value of the response. *)
Lemma processResponse_fences_dropped_witness :
  completion
    (processResponse
       (json "{'score':1,'improvements':[],'strengths':['use " ++ FENCE_JSON
        ++ str "code" ++ FENCE ++ json "']}")
       offline uninitialized)
  = Normal (JObject [(str "score", JNumber (number_of_N 1));
                     (str "improvements", JArray []);
                     (str "strengths", JArray [JString (str "use code")])]).
Proof.
  assert (Ha : free_of BACKTICK (json "{'score':1,'improvements':[],'strengths':['use "))
    by (apply free_of_check; reflexivity).
  assert (Hb : free_of BACKTICK (str "code")) by (apply free_of_check; reflexivity).
  assert (Hc : free_of BACKTICK (json "']}")) by (apply free_of_check; reflexivity).
  rewrite (proj2 (processResponse_fences_dropped offline uninitialized
                    Ha Hb Hc eq_refl)).
  vm_compute. reflexivity.
Defined.

Lemma fence_head2 (r : jsstring) :
  starts_with [BACKTICK; BACKTICK] r = false ->
  starts_with [BACKTICK; BACKTICK] (remove_all FENCE r) = false.
Proof.
  change FENCE with [BACKTICK; BACKTICK; BACKTICK].
  destruct r as [|x r2]; [reflexivity|].
  rewrite remove_all_cons, !starts_with_cons.
  destruct (N.eqb BACKTICK x) eqn:Ex; cbn [andb].
  - destruct r2 as [|y r3]; [intros _; exact (andb_false_r _)|].
    rewrite !starts_with_cons.
    destruct (N.eqb BACKTICK y) eqn:Ey; cbn [andb]; [discriminate|].
    intros _. rewrite remove_all_cons, !starts_with_cons, Ey. cbn [andb].
    now rewrite !starts_with_cons, Ex, Ey.
  - intros _. now rewrite starts_with_cons, Ex.
Qed.

Lemma fence_head (n : nat) :
  forall s, (List.length s <= n)%nat ->
            starts_with FENCE (remove_all FENCE s) = false.
Proof.
  induction n as [|n IH]; intros [|c r] Hn; cbn [List.length] in Hn;
    try reflexivity; try lia.
  rewrite remove_all_cons.
  destruct (starts_with FENCE (c :: r)) eqn:Hs.
  - apply IH. rewrite length_skipn. lia.
  - change FENCE with [BACKTICK; BACKTICK; BACKTICK] in *.
    rewrite starts_with_cons in *.
    destruct (N.eqb BACKTICK c); [|reflexivity].
    cbn [andb] in *. now apply fence_head2.
Qed.

Lemma fence_head_all (s : jsstring) :
  starts_with FENCE (remove_all FENCE s) = false.
Proof. apply fence_head with (n := List.length s). lia. Qed.

Lemma fence_gone (n : nat) :
  forall s, (List.length s <= n)%nat ->
            contains FENCE (remove_all FENCE s) = false.
Proof.
  induction n as [|n IH]; intros [|c r] Hn; cbn [List.length] in Hn;
    try reflexivity; try lia.
  pose proof (fence_head_all (c :: r)) as Hhead.
  rewrite remove_all_cons in *.
  destruct (starts_with FENCE (c :: r)).
  - apply IH. rewrite length_skipn. lia.
  - cbn [contains]. rewrite Hhead. cbn [orb]. apply IH. lia.
Qed.

Lemma fence_gone_all (s : jsstring) :
  contains FENCE (remove_all FENCE s) = false.
Proof. apply fence_gone with (n := List.length s). lia. Qed.

Lemma starts_with_longer (pat m r : jsstring) :
  starts_with pat m = true -> starts_with pat (m ++ r) = true.
Proof.
  revert m. induction pat as [|p pat IH]; intros [|x m]; try reflexivity;
    try discriminate.
  cbn [app]. rewrite !starts_with_cons. intros H.
  apply andb_true_iff in H as [Hp Hm]. now rewrite Hp, IH.
Qed.

Lemma contains_cons (pat : jsstring) (x : N) (s : jsstring) :
  contains pat (x :: s) = starts_with pat (x :: s) || contains pat s.
Proof. reflexivity. Qed.

Lemma contains_app_r (pat m r : jsstring) :
  contains pat m = true -> contains pat (m ++ r) = true.
Proof.
  induction m as [|x m IH].
  - destruct pat; [|discriminate]. intros _. now destruct r.
  - cbn [app]. rewrite !contains_cons. intros H.
    apply orb_true_iff in H as [H|H].
    + apply (starts_with_longer _ _ r) in H. cbn [app] in H. now rewrite H.
    + rewrite (IH H). apply orb_true_r.
Qed.

Lemma contains_app_l (pat l m : jsstring) :
  contains pat m = true -> contains pat (l ++ m) = true.
Proof.
  intros H. induction l as [|x l IH]; [exact H|].
  cbn [app]. rewrite contains_cons, IH. apply orb_true_r.
Qed.

Lemma trimStart_suffix (s : jsstring) : exists l, s = l ++ trimStart s.
Proof.
  induction s as [|c r [l IH]]; [now exists []|].
  cbn [trimStart]. destruct (is_trim_space c).
  - exists (c :: l). cbn [app]. now f_equal.
  - now exists [].
Qed.

Lemma trim_infix (s : jsstring) : exists l r, s = l ++ trim s ++ r.
Proof.
  unfold trim, trimEnd.
  destruct (trimStart_suffix s) as [l Hl].
  destruct (trimStart_suffix (rev (trimStart s))) as [r Hr].
  exists l, (rev r). rewrite <- rev_app_distr, <- Hr, rev_involutive. exact Hl.
Qed.

(** X12. The text handed to [JSON.parse] never holds a fence marker:
    whatever the response, no three backticks in a row are left. *)
Theorem clean_leaves_no_fence (text : jsstring) :
  contains FENCE (clean text) = false.
Proof.
  unfold clean.
  destruct (trim_infix (remove_all FENCE (remove_all FENCE_JSON text))) as (l & r & E).
  destruct (contains FENCE (trim _)) eqn:Hc; [|reflexivity].
  apply (contains_app_r _ _ r), (contains_app_l _ l) in Hc.
  rewrite <- E in Hc.
  now rewrite fence_gone_all in Hc.
Qed.

(** ** Reading the file *)

Lemma split_free (sep : N) (s : jsstring) :
  free_of sep s -> split sep s = [s].
Proof.
  induction s as [|c r IH]; intros H; [reflexivity|].
  apply free_of_cons in H as [Hc Hr].
  cbn [split]. destruct (N.eqb_spec c sep) as [E|_]; [contradiction|].
  now rewrite IH.
Qed.

Lemma split_at (sep : N) (a rest : jsstring) :
  free_of sep a -> split sep (a ++ sep :: rest) = a :: split sep rest.
Proof.
  induction a as [|c r IH]; intros H.
  - cbn [app split]. now rewrite N.eqb_refl.
  - apply free_of_cons in H as [Hc Hr].
    cbn [app split]. destruct (N.eqb_spec c sep) as [E|_]; [contradiction|].
    now rewrite IH.
Qed.

(** X13. [fileToBase64] gives the part of the reader's result between the
    first comma and the second one (or the end): for a data URL
    [header,data] that is [data]; what follows a second comma is lost. *)
Theorem fileToBase64_payload
        (file : Blob) (w : World) (s : ServiceState)
        (header data rest : jsstring) :
  free_of COMMA_CHAR header ->
  free_of COMMA_CHAR data ->
  reader_answer w file = Normal (header ++ COMMA_CHAR :: data)
  \/ reader_answer w file = Normal (header ++ COMMA_CHAR :: data ++ COMMA_CHAR :: rest) ->
  fileToBase64 file w s = mkRun (Normal (Some data)) s [ReadAsDataURL file].
Proof.
  intros Hh Hd Hread.
  unfold fileToBase64. run_monad.
  change (ch ",") with COMMA_CHAR.
  destruct Hread as [-> | ->]; rewrite split_at by assumption.
  - now rewrite split_free.
  - now rewrite split_at.
Qed.

(** The data URL of a PDF. *)
Lemma fileToBase64_payload_witness :
  fileToBase64 small_pdf online initialized
  = mkRun (Normal (Some (str "JVBERi0xLjQK"))) initialized [ReadAsDataURL small_pdf].
Proof.
  apply (@fileToBase64_payload small_pdf online initialized
           (str "data:application/pdf;base64") (str "JVBERi0xLjQK") []);
    try (apply free_of_check; reflexivity).
  left. reflexivity.
Defined.

(** X14. When the reader's result holds no comma, [fileToBase64] gives
    [undefined], and an initialized service still sends the request for a
    valid PDF, with no data in it. *)
Theorem analyzeResume_without_payload
        (file : Blob) (w : World) (s : ServiceState) (c : GoogleGenAI)
        (result : jsstring) :
  type file = PDF ->
  (size file <= MAX_SIZE)%N ->
  ai s = Some c ->
  reader_answer w file = Normal result ->
  free_of COMMA_CHAR result ->
  fileToBase64 file w s = mkRun (Normal None) s [ReadAsDataURL file]
  /\ inference_calls (events (analyzeResume file w s))
     = [GenerateContent c (analysisRequest file None)].
Proof.
  intros Htype Hsize Hai Hread Hfree. split.
  - unfold fileToBase64. run_monad. rewrite Hread.
    change (ch ",") with COMMA_CHAR. now rewrite split_free.
  - rewrite analyzeResume_calls, Htype, streqb_refl.
    apply N.ltb_ge in Hsize. rewrite Hsize. simpl negb. cbv iota.
    rewrite analyzeWithGemini_calls, Hai, Hread.
    change (ch ",") with COMMA_CHAR. now rewrite split_free.
Qed.

(** A reader whose result is [data:]. *)
Lemma analyzeResume_without_payload_witness :
  inference_calls (events (analyzeResume small_pdf empty_read initialized))
  = [GenerateContent test_client (analysisRequest small_pdf None)].
Proof.
  apply (analyzeResume_without_payload small_pdf empty_read initialized
           (c := test_client) (result := str "data:")); try reflexivity.
  - unfold small_pdf, MAX_SIZE; simpl; lia.
  - apply free_of_check. reflexivity.
Defined.

(** ** The error of a failed fetch *)

Lemma uint_digits_inj (d1 d2 : Decimal.uint) :
  uint_digits d1 = uint_digits d2 -> d1 = d2.
Proof.
  revert d2. induction d1; intros []; cbn [uint_digits]; intros H;
    try reflexivity; try discriminate;
    injection H as H; f_equal; auto.
Qed.

Lemma Number_toString_inj (a b : N) :
  Number_toString a = Number_toString b -> a = b.
Proof.
  unfold Number_toString. intros H. apply uint_digits_inj in H.
  rewrite <- (DecimalN.Unsigned.of_to a), <- (DecimalN.Unsigned.of_to b).
  now rewrite H.
Qed.

(** X15. The error of a failed fetch tells the status: two fetches that
    end with different statuses, neither a success, make
    [analyzeResumeFromUrl] throw different errors. *)
Theorem analyzeResumeFromUrl_error_tells_status
        (url : jsstring) (w1 w2 : World) (s : ServiceState)
        (response1 response2 : Response) :
  fetch_answer w1 url = Normal response1 ->
  fetch_answer w2 url = Normal response2 ->
  ok response1 = false ->
  ok response2 = false ->
  status response1 <> status response2 ->
  completion (analyzeResumeFromUrl url w1 s)
  <> completion (analyzeResumeFromUrl url w2 s).
Proof.
  intros H1 H2 Hok1 Hok2 Hstatus.
  rewrite !analyzeResumeFromUrl_run, H1, H2, Hok1, Hok2.
  simpl negb. cbv iota. cbn [completion url_rejected].
  intros H. apply Hstatus. unfold FetchFailure in H. injection H as H.
  now apply Number_toString_inj.
Qed.

(** Not found, and a server error. *)
Lemma analyzeResumeFromUrl_error_tells_status_witness :
  completion (analyzeResumeFromUrl resume_url not_found initialized)
  <> completion (analyzeResumeFromUrl resume_url server_error initialized).
Proof.
  apply (analyzeResumeFromUrl_error_tells_status resume_url not_found server_error
           initialized (response1 := mkResponse false 404 (Normal text_file))
           (response2 := mkResponse false 500 (Normal text_file)));
    try reflexivity.
  discriminate.
Defined.

(** ** The page *)

Lemma after_app (st : App.State) (l1 l2 : list App.Effect) :
  App.after st (l1 ++ l2) = App.after (App.after st l1) l2.
Proof. apply fold_left_app. Qed.

Lemma after_service (st : App.State) (evs : list Event) :
  App.after st (map App.Service evs) = st.
Proof. induction evs as [|e evs IH]; [reflexivity | exact IH]. Qed.

Lemma service_events_app (l1 l2 : list App.Effect) :
  App.service_events (l1 ++ l2) = App.service_events l1 ++ App.service_events l2.
Proof. apply flat_map_app. Qed.

Lemma service_events_service (evs : list Event) :
  App.service_events (map App.Service evs) = evs.
Proof.
  induction evs as [|e evs IH]; [reflexivity|].
  cbn [map App.service_events flat_map app]. f_equal. exact IH.
Qed.

(** The state and the service calls of a submit with a file selected. *)
Lemma handleSubmit_with_file (st : App.State) (w : World) (s : ServiceState)
      (f : Blob) :
  App.file st = Some f ->
  App.service_events (fst (App.handleSubmit st w s)) = events (analyzeResume f w s)
  /\ App.after st (fst (App.handleSubmit st w s))
     = match completion (analyzeResume f w s) with
       | Normal r => App.mkApp (Some f) false (Some r) None
       | Throw _ => App.mkApp (Some f) false (App.result st) (Some App.GENERIC_ERROR)
       end
  /\ snd (App.handleSubmit st w s) = s.
Proof.
  intros Hf. unfold App.handleSubmit. rewrite Hf. cbn [fst snd].
  split; [|split].
  - change ([App.PreventDefault; App.SetIsLoading true; App.SetError None] ++ ?l)
      with (App.PreventDefault :: App.SetIsLoading true :: App.SetError None :: l).
    cbn [App.service_events flat_map app].
    fold (App.service_events
            (map App.Service (events (analyzeResume f w s))
             ++ match completion (analyzeResume f w s) with
                | Normal r => [App.SetResult (Some r)]
                | Throw e => [App.SetError (Some (str "An error occurred while analyzing your resume. Please try again."));
                              App.LogError e]
                end ++ [App.SetIsLoading false])).
    rewrite service_events_app, service_events_service.
    destruct (completion (analyzeResume f w s)); cbn; apply app_nil_r.
  - rewrite !after_app, after_service.
    destruct st as [file0 loading0 result0 error0]. cbn in Hf. subst file0.
    destruct (completion (analyzeResume f w s)); reflexivity.
  - apply analyzeResume_state.
Qed.

Lemma handleFileChange_state (st : App.State) (files : option (list Blob)) :
  App.after st (App.handleFileChange files)
  = match App.first_file files with
    | None => App.mkApp (App.file st) (App.isLoading st) None None
    | Some g =>
        if streqb (type g) PDF
        then App.mkApp (Some g) (App.isLoading st) None None
        else App.mkApp (App.file st) (App.isLoading st) None
                       (Some (str "Please upload a PDF file only"))
    end.
Proof.
  unfold App.handleFileChange. cbv zeta.
  destruct (App.first_file files) as [g|]; [|reflexivity].
  change (str "application/pdf") with PDF.
  destruct (streqb (type g) PDF); reflexivity.
Qed.

Lemma step_invariant (st : App.State) (s : ServiceState) (a : App.Action) :
  page_invariant st ->
  page_invariant (fst (App.step (st, s) a)) /\ snd (App.step (st, s) a) = s.
Proof.
  intros [Hload Hfile]. destruct a as [files|w]; cbn [App.step fst snd].
  - split; [|reflexivity]. rewrite handleFileChange_state.
    destruct (App.first_file files) as [g|]; [destruct (streqb (type g) PDF) eqn:Hg|];
      split; cbn; auto.
    intros f H. injection H as <-. now apply streqb_eq.
  - destruct (App.file st) as [f|] eqn:Hf.
    + destruct (handleSubmit_with_file st w s Hf) as (_ & Hst & Hs).
      split; [|exact Hs]. rewrite Hst.
      destruct (completion (analyzeResume f w s)); split; cbn; auto;
        intros f' H; injection H as <-; auto.
    + unfold App.handleSubmit. rewrite Hf. cbn. split; [|reflexivity].
      split; [exact Hload|]. rewrite Hf. discriminate.
Qed.

Lemma session_invariant (acts : list App.Action) :
  forall st s,
    page_invariant st ->
    page_invariant (fst (App.session acts st s)) /\ snd (App.session acts st s) = s.
Proof.
  unfold App.session.
  induction acts as [|a acts IH]; intros st s Hinv; [now split|].
  cbn [fold_left].
  destruct (step_invariant s a Hinv) as [Hinv' Hs].
  destruct (App.step (st, s) a) as [st' s'] eqn:Hstep. cbn [fst snd] in *.
  subst s'. now apply IH.
Qed.

(** X16. Whatever the user does, starting from the first render: between
    two events nothing is loading, the file the page keeps (the one a
    submit hands to [analyzeResume]) is declared ["application/pdf"], and
    the initialization of the service is as it was. *)
Theorem page_keeps_pdf_only (acts : list App.Action) (s : ServiceState) :
  page_invariant (fst (App.session acts App.initial s))
  /\ snd (App.session acts App.initial s) = s.
Proof.
  apply session_invariant. split; [reflexivity | discriminate].
Qed.

(** X17. A submit with a file selected hands that file to [analyzeResume]
    once and ends with nothing loading.  When the analysis returns, its
    result is shown and no error; when it throws, whatever the error, the
    page shows the same fixed message, logs the error, and keeps the result
    it showed before. *)
Theorem handleSubmit_outcome
        (st : App.State) (w : World) (s : ServiceState) (f : Blob) :
  App.file st = Some f ->
  App.service_events (fst (App.handleSubmit st w s)) = events (analyzeResume f w s)
  /\ App.isLoading (App.after st (fst (App.handleSubmit st w s))) = false
  /\ App.file (App.after st (fst (App.handleSubmit st w s))) = Some f
  /\ (forall r, completion (analyzeResume f w s) = Normal r ->
      App.result (App.after st (fst (App.handleSubmit st w s))) = Some r
      /\ App.error (App.after st (fst (App.handleSubmit st w s))) = None)
  /\ (forall e, completion (analyzeResume f w s) = Throw e ->
      App.result (App.after st (fst (App.handleSubmit st w s))) = App.result st
      /\ App.error (App.after st (fst (App.handleSubmit st w s)))
         = Some App.GENERIC_ERROR
      /\ In (App.LogError e) (fst (App.handleSubmit st w s))).
Proof.
  intros Hf. destruct (handleSubmit_with_file st w s Hf) as (Hev & Hst & _).
  split; [exact Hev|]. rewrite Hst.
  repeat split.
  - now destruct (completion (analyzeResume f w s)).
  - now destruct (completion (analyzeResume f w s)).
  - rewrite H. reflexivity.
  - rewrite H. reflexivity.
  - rewrite H. reflexivity.
  - rewrite H. reflexivity.
  - unfold App.handleSubmit. rewrite Hf, H. cbn [fst].
    apply in_or_app. right. apply in_or_app. right.
    apply in_or_app. left. right. now left.
Qed.

(** A submit that the inference service rejects, after an earlier result. *)
Lemma handleSubmit_outcome_witness :
  App.error
    (App.after (App.mkApp (Some small_pdf) false (Some result_82) None)
       (fst (App.handleSubmit (App.mkApp (Some small_pdf) false (Some result_82) None)
               quota_exceeded initialized)))
  = Some App.GENERIC_ERROR
  /\ App.result
       (App.after (App.mkApp (Some small_pdf) false (Some result_82) None)
          (fst (App.handleSubmit (App.mkApp (Some small_pdf) false (Some result_82) None)
                  quota_exceeded initialized)))
     = Some result_82.
Proof.
  destruct (handleSubmit_outcome
              (App.mkApp (Some small_pdf) false (Some result_82) None)
              quota_exceeded initialized eq_refl)
    as (_ & _ & _ & _ & Hthrow).
  destruct (Hthrow (Rejection (str "ApiError: 429"))) as (Hr & He & _).
  - vm_compute. reflexivity.
  - split; [exact He | exact Hr].
Defined.

(** X18. Picking a file that is not a PDF shows an error and leaves the
    file picked before in place: the next submit analyses that earlier
    file. *)
Theorem rejected_selection_keeps_file
        (st : App.State) (f g : Blob) (others : list Blob)
        (w : World) (s : ServiceState) :
  App.file st = Some f ->
  type g <> PDF ->
  App.file (App.after st (App.handleFileChange (Some (g :: others)))) = Some f
  /\ App.error (App.after st (App.handleFileChange (Some (g :: others))))
     = Some (str "Please upload a PDF file only")
  /\ App.service_events
       (fst (App.handleSubmit
               (App.after st (App.handleFileChange (Some (g :: others)))) w s))
     = events (analyzeResume f w s).
Proof.
  intros Hf Hg. apply streqb_neq in Hg.
  rewrite handleFileChange_state. cbn [App.first_file]. rewrite Hg.
  cbn [App.file App.error]. repeat split; try assumption.
  apply handleSubmit_with_file. exact Hf.
Qed.

(** A PDF is picked, then a text file, then the form is submitted. *)
Lemma rejected_selection_keeps_file_witness :
  App.file (fst (App.session pdf_then_text App.initial initialized)) = Some small_pdf
  /\ App.service_events
       (fst (App.handleSubmit
               (fst (App.session pdf_then_text App.initial initialized))
               online initialized))
     = events (analyzeResume small_pdf online initialized).
Proof.
  assert (Hg : type text_file <> PDF) by (vm_compute; discriminate).
  destruct (@rejected_selection_keeps_file
              (App.after App.initial (App.handleFileChange (Some [small_pdf])))
              small_pdf text_file [] online initialized
              eq_refl Hg) as (H1 & _ & H3).
  split; [exact H1 | exact H3].
Defined.

(** ** When an analysis succeeds *)

(** X19. [analyzeResume] returns [r] exactly when every stage went
    through: the document is a PDF of at most 4 MiB, the service is
    initialized, the read and the inference call both succeeded, and
    [processResponse] returns [r] for the text of the answer. *)
Theorem analyzeResume_success_iff
        (file : Blob) (w : World) (s : ServiceState) (r : JSValue) :
  completion (analyzeResume file w s) = Normal r
  <-> type file = PDF
      /\ (size file <= MAX_SIZE)%N
      /\ exists c result answer,
          ai s = Some c
          /\ reader_answer w file = Normal result
          /\ generate_answer w c
               (analysisRequest file (nth_error (split (ch ",") result) 1))
             = Normal answer
          /\ completion (processResponse (response_text answer) w s) = Normal r.
Proof.
  rewrite analyzeResume_run. split.
  - destruct (negb (streqb (type file) PDF)) eqn:Htype; [discriminate|].
    destruct (N.ltb MAX_SIZE (size file)) eqn:Hsize; [discriminate|].
    apply negb_false_iff, streqb_eq in Htype. apply N.ltb_ge in Hsize.
    intros H. apply try_catch_rethrow_returns in H.
    rewrite analyzeWithGemini_run in H.
    destruct (ai s) as [c|]; [|discriminate].
    destruct (reader_answer w file) as [result|e]; [|discriminate].
    cbv zeta in H.
    destruct (generate_answer w c _) as [answer|e] eqn:Hgen; [|discriminate].
    cbn [completion] in H.
    split; [exact Htype|]. split; [exact Hsize|].
    exists c, result, answer. auto.
  - intros (Htype & Hsize & c & result & answer & Hai & Hread & Hgen & Hr).
    rewrite Htype, streqb_refl. apply N.ltb_ge in Hsize. rewrite Hsize.
    simpl negb. cbv iota.
    rewrite try_catch_rethrow_run, analyzeWithGemini_run, Hai, Hread.
    cbv zeta. rewrite Hgen. cbn [completion]. exact Hr.
Qed.
